(** * bol-price-monitor: a shallow embedding of [src/price_monitor.py]

    The bot scrapes a product page, cleans the price text up, parses it as a
    float, keeps one record per (chat, URL) in a dict of dicts mirrored to a
    JSON file, and re-checks every record in a polling sweep.

    Modelling choices, all taken from the source:
    - a Python [str] is a list of Unicode code points; the tables behind
      [str.isdigit], [str.isspace] and the digit values read by [float()]
      belong to the Python runtime and are the interface [Unicode];
    - a Python [float] is a binary64 number: the kernel's primitive [float],
      whose operations are the IEEE 754 ones;
    - a Python [dict] is an association list in insertion order with unique
      keys (the remove menu numbers the records in iteration order);
    - exceptions are values of [Exc]; a [try ... except Exception] is
      [try_except];
    - the network, the HTML parser, the Telegram API, the clock and the file
      system are a [World] queried at successive ticks; what the bot does to
      them is the [trace] of [Event]s;
    - logging and the pacing sleeps change neither the bot's state nor its
      messages and are left out. *)

From Stdlib Require Import ZArith NArith List String Ascii Bool Lia Floats.
From Stdlib Require Import DecimalString DecimalN.
Import ListNotations.

Set Warnings "-inexact-float".

Local Open Scope N_scope.

(** ** Python text *)

Definition char := N.
Definition str := list char.

(** Reads a literal of this file (UTF-8 bytes) as code points. *)
Fixpoint utf8 (bs : list N) (need : nat) (acc : N) : str :=
  match bs with
  | [] => []
  | b :: bs' =>
      match need with
      | O =>
          if b <? 128 then b :: utf8 bs' 0 0
          else if b <? 224 then utf8 bs' 1 (b - 192)
          else if b <? 240 then utf8 bs' 2 (b - 224)
          else utf8 bs' 3 (b - 240)
      | S O => (acc * 64 + (b - 128)) :: utf8 bs' 0 0
      | S n => utf8 bs' n (acc * 64 + (b - 128))
      end
  end.

Definition py (s : string) : str :=
  utf8 (map N_of_ascii (list_ascii_of_string s)) 0 0.

Definition nl : str := [10].
Definition period : char := 46.
Definition comma : char := 44.

(** The character tables of the Python runtime. [isdigit c] is
    ['c'.isdigit()], [isspace c] is ['c'.isspace()], [decimal c] is the value
    [float()] and [int()] read for a decimal digit of any script ([None] for
    every other character, superscript digits included). *)
Class Unicode := {
  isdigit : char -> bool;
  isspace : char -> bool;
  decimal : char -> option N;
  space_not_digit : forall c, isspace c = true -> isdigit c = false;
  period_not_space : isspace period = false;
  comma_not_space : isspace comma = false;
  period_not_digit : isdigit period = false;
  comma_not_digit : isdigit comma = false;
  decimal_isdigit : forall c d, decimal c = Some d -> isdigit c = true /\ d < 10;
  ascii_digit : forall c, 48 <= c <= 57 -> decimal c = Some (c - 48)
}.

Fixpoint dropwhile {A} (p : A -> bool) (l : list A) : list A :=
  match l with
  | [] => []
  | x :: l' => if p x then dropwhile p l' else l
  end.

Fixpoint eqb_str (a b : str) : bool :=
  match a, b with
  | [], [] => true
  | x :: a', y :: b' => (x =? y) && eqb_str a' b'
  | _, _ => false
  end.

(** [s.startswith(prefix)] *)
Fixpoint startswith (s prefix : str) : bool :=
  match prefix, s with
  | [], _ => true
  | p :: prefix', c :: s' => (c =? p) && startswith s' prefix'
  | _ :: _, [] => false
  end.

(** [s.strip()] *)
Definition strip `{U : Unicode} (s : str) : str :=
  rev (dropwhile isspace (rev (dropwhile isspace s))).

(** [s.replace(old, new)] for one-character [old] and [new]. *)
Definition replace (old new : char) (s : str) : str :=
  map (fun c => if c =? old then new else c) s.

(** [s.count(x)] for a one-character [x]. *)
Definition count (x : char) (s : str) : nat :=
  List.length (filter (N.eqb x) s).

(** [s.split(sep)] for a one-character [sep]: never empty, one more part than
    there are separators. *)
Fixpoint split (sep : char) (s : str) : list str :=
  match s with
  | [] => [[]]
  | c :: s' =>
      if c =? sep then [] :: split sep s'
      else match split sep s' with
           | p :: ps => (c :: p) :: ps
           | [] => [[c]]
           end
  end.

(** [''.join(parts)] *)
Definition join (parts : list str) : str := List.concat parts.

(** [any(c.isdigit() for c in s)] *)
Definition any_isdigit `{U : Unicode} (s : str) : bool := existsb isdigit s.

(** [str(n)] for a non-negative integer. *)
Definition str_of_N (n : N) : str :=
  map N_of_ascii (list_ascii_of_string (NilEmpty.string_of_uint (N.to_uint n))).

Definition str_of_nat (n : nat) : str := str_of_N (N.of_nat n).

(** ** Exceptions *)

Inductive exn :=
| ValueError
| KeyError
| ZeroDivisionError
| RequestException
| HTTPError
| TelegramError
| OSError.

Inductive Exc (A : Type) :=
| Ok (a : A)
| Raise (e : exn).
Arguments Ok {A} a.
Arguments Raise {A} e.

(** ** Python floats *)

Local Open Scope float_scope.

Definition sf_of_N (n : N) : spec_float :=
  match n with
  | N0 => S754_zero false
  | Npos p => S754_finite false p 0
  end.

(** The binary64 number nearest to [n / 10^k] (ties to even), which is what
    [float()] returns for the decimal text of [n] with [k] digits after the
    point: [SFdiv] rounds the exact quotient of the two integers once. *)
Definition decimal_to_float (n k : N) : float :=
  SF2Prim (SFdiv prec emax (sf_of_N n) (sf_of_N (10 ^ k))).

(** The number a run of decimal digits denotes, most significant first;
    [None] when a character is no decimal digit. *)
Fixpoint digits_value `{U : Unicode} (acc : N) (s : str) : option N :=
  match s with
  | [] => Some acc
  | c :: s' =>
      match decimal c with
      | Some d => digits_value (acc * 10 + d)%N s'
      | None => None
      end
  end.

(** [float(s)] on the texts the clean-up can leave (digits and periods, see
    [clean_price_text_alphabet]): digits with at most one period and at least
    one digit; anything else there is a [ValueError]. Signs, exponents,
    underscores and the spellings of infinity and nan, which [float()] also
    reads, need characters the clean-up has removed. *)
Definition float_of_str `{U : Unicode} (s : str) : Exc float :=
  match split period s with
  | [ip] =>
      match ip, digits_value 0 ip with
      | _ :: _, Some n => Ok (decimal_to_float n 0)
      | _, _ => Raise ValueError
      end
  | [ip; fp] =>
      match ip ++ fp, digits_value 0 (ip ++ fp) with
      | _ :: _, Some n => Ok (decimal_to_float n (N.of_nat (List.length fp)))
      | _, _ => Raise ValueError
      end
  | _ => Raise ValueError
  end.

(** ** The price text clean-up of [get_price] (lines 131-143) *)

(** [c.isdigit() or c in '.,'] *)
Definition kept `{U : Unicode} (c : char) : bool :=
  isdigit c || ((c =? period)%N || (c =? comma)%N).

Definition clean_price_text `{U : Unicode} (element_text : str) : str :=
  let price_text := strip element_text in
  let price_text := filter kept price_text in
  let price_text := replace comma period price_text in
  if (1 <? count period price_text)%nat then
    let parts := split period price_text in
    join (removelast parts) ++ [period] ++ last parts []
  else price_text.

(** [if price > 1000: price = price / 100] *)
Definition convert_if_too_high (price : float) : float :=
  if 1000 <? price then price / 100 else price.

(** The clean-up as the specification words it: keep digits, commas and
    periods; commas become periods; with more than one period, the text
    before the last period loses its periods and the last period stays. *)
Fixpoint takewhile {A} (p : A -> bool) (l : list A) : list A :=
  match l with
  | [] => []
  | x :: l' => if p x then x :: takewhile p l' else []
  end.

Definition is_not (x : char) (c : char) : bool := negb (c =? x)%N.

Definition before_last (x : char) (s : str) : str :=
  rev (tl (dropwhile (is_not x) (rev s))).

Definition after_last (x : char) (s : str) : str :=
  rev (takewhile (is_not x) (rev s)).

Definition normalized_as_specified `{U : Unicode} (raw : str) : str :=
  let t := map (fun c => if (c =? comma)%N then period else c) (filter kept raw) in
  if (1 <? count period t)%nat then
    filter (is_not period) (before_last period t) ++ [period] ++ after_last period t
  else t.


(** ** Formatting floats: [f"{x:.2f}"] and [f"{x:+.1f}"] *)

(** The integer nearest to [a / b] for positive [a] and [b], ties to even. *)
Definition div_half_even (a b : Z) : Z :=
  let q := (a / b)%Z in
  match (2 * (a mod b) ?= b)%Z with
  | Lt => q
  | Gt => (q + 1)%Z
  | Eq => if Z.even q then q else (q + 1)%Z
  end.

(** [m * 2^e * 10^d] rounded to an integer: the digits the fixed-point
    format prints, correctly rounded as Python's are. *)
Definition scaled (d : nat) (m : positive) (e : Z) : Z :=
  let num := (Z.pos m * 10 ^ Z.of_nat d)%Z in
  if (0 <=? e)%Z then (num * 2 ^ e)%Z else div_half_even num (2 ^ (- e)).

Definition fixed_point (d : nat) (r : Z) : str :=
  let ip := Z.to_N (r / 10 ^ Z.of_nat d) in
  let fp := str_of_N (Z.to_N (r mod 10 ^ Z.of_nat d)) in
  match d with
  | O => str_of_N ip
  | S _ => str_of_N ip ++ [period] ++ repeat 48%N (d - List.length fp) ++ fp
  end.

Definition format_f (plus : bool) (d : nat) (x : float) : str :=
  let sign (s : bool) := if s then py "-" else if plus then py "+" else [] in
  match Prim2SF x with
  | S754_nan => sign false ++ py "nan"
  | S754_infinity s => sign s ++ py "inf"
  | S754_zero s => sign s ++ fixed_point d 0
  | S754_finite s m e => sign s ++ fixed_point d (scaled d m e)
  end.

Definition format_price (price : float) : str :=
  py "€" ++ format_f false 2 price.

(** Float division: Python raises where IEEE 754 returns an infinity or nan. *)
Definition truediv (a b : float) : Exc float :=
  if b =? 0 then Raise ZeroDivisionError else Ok (a / b).

(** ** Dicts *)

Class Key (K : Type) := {
  keyb : K -> K -> bool;
  keyb_eq : forall a b, keyb a b = true <-> a = b
}.

Lemma eqb_str_eq (a b : str) : eqb_str a b = true <-> a = b.
Proof.
  revert b. induction a as [|x a IH]; intros [|y b]; simpl; try easy.
  rewrite andb_true_iff, N.eqb_eq, IH. split.
  - intros [-> ->]. reflexivity.
  - intros [= -> ->]. auto.
Qed.

#[export] Instance Key_Z : Key Z := {| keyb := Z.eqb; keyb_eq := Z.eqb_eq |}.

#[export] Instance Key_str : Key str := {| keyb := eqb_str; keyb_eq := eqb_str_eq |}.

Definition dict (K V : Type) := list (K * V).

Section Dict.
Context {K V : Type} `{Key K}.

(** [d.get(k)], and [d[k]] where [None] stands for the [KeyError]. *)
Fixpoint dict_get (k : K) (d : dict K V) : option V :=
  match d with
  | [] => None
  | (k', v) :: d' => if keyb k k' then Some v else dict_get k d'
  end.

(** [k in d] *)
Definition dict_in (k : K) (d : dict K V) : bool :=
  match dict_get k d with
  | Some _ => true
  | None => false
  end.

(** [d[k] = v]: an existing key keeps its place, a new one goes last. *)
Fixpoint dict_set (k : K) (v : V) (d : dict K V) : dict K V :=
  match d with
  | [] => [(k, v)]
  | (k', v') :: d' =>
      if keyb k k' then (k', v) :: d' else (k', v') :: dict_set k v d'
  end.

(** [del d[k]] for a key of [d]. *)
Fixpoint dict_del (k : K) (d : dict K V) : dict K V :=
  match d with
  | [] => []
  | (k', v') :: d' => if keyb k k' then d' else (k', v') :: dict_del k d'
  end.

Definition keys (d : dict K V) : list K := map fst d.

End Dict.

(** ** The bot's data *)

(** A record of [products[chat_id][url]]. *)
Record Product := {
  name : str;
  last_price : float;
  last_check : str
}.

(** The store is keyed by [str(chat.id)]; the model keys it by the integer
    itself ([str] is injective on integers and [int(str(n))] is [n]). *)
Definition Products := dict Z (dict str Product).

Record PriceBot := {
  products : Products;
  _remove_urls : dict str str
}.

(** ** The page *)

(** An element of the parsed page, in document order: what [find] and
    [find_all] look at, and its [.text]. *)
Record Element := {
  tag : str;
  attrs : dict str str;
  classes : list str;
  text : str
}.

Definition Soup := list Element.

Record Response := {
  raise_for_status : Exc unit;
  response_text : str
}.

(** ** The environment and the trace *)

Record World := {
  session_get : nat -> str -> Exc Response;
  BeautifulSoup : str -> Soup;
  send_message : nat -> Z -> str -> Exc unit;
  datetime_now : nat -> str;
  json_dump : nat -> Exc unit;
  dump_truncates : nat -> bool;
  telegram_call : nat -> Exc unit
}.

Inductive Event :=
| SessionGet (url : str)
| ReplyText (chat_id : Z) (message : str)
| ReplyKeyboard (chat_id : Z) (message : str) (keyboard : list (str * str))
| QueryAnswer (chat_id : Z)
| EditMessageText (chat_id : Z) (message : str)
| SendMessage (chat_id : Z) (message : str) (delivered : bool).

(** The state a run threads: the bot object, the store that
    [data/products.json] holds ([None] when there is no file or none that can
    be read), the tick of the next query to the world, and what the bot has
    done so far. *)
Record Run := {
  self : PriceBot;
  file : option Products;
  tick : nat;
  trace : list Event
}.

(** ** The monad of the bot's methods: state, and exceptions that keep it *)

Definition M (A : Type) := Run -> Exc A * Run.

Definition ret {A} (a : A) : M A := fun r => (Ok a, r).

Definition bind {A B} (m : M A) (k : A -> M B) : M B :=
  fun r =>
    match m r with
    | (Ok a, r') => k a r'
    | (Raise e, r') => (Raise e, r')
    end.

Definition raise {A} (e : exn) : M A := fun r => (Raise e, r).

(** [try: m except Exception: handler] *)
Definition try_except {A} (m : M A) (handler : exn -> M A) : M A :=
  fun r =>
    match m r with
    | (Ok a, r') => (Ok a, r')
    | (Raise e, r') => handler e r'
    end.

Definition lift {A} (x : Exc A) : M A := fun r => (x, r).

Declare Scope py_scope.
Delimit Scope py_scope with py_scope.
Notation "x <- m ;; k" := (bind m (fun x => k))
  (at level 100, m at next level, right associativity) : py_scope.
Notation "m ;; k" := (bind m (fun _ => k))
  (at level 100, right associativity) : py_scope.
Local Open Scope py_scope.

Fixpoint for_each {A} (l : list A) (body : A -> M unit) : M unit :=
  match l with
  | [] => ret tt
  | x :: l' => body x ;; for_each l' body
  end.

Definition emit (e : Event) : M unit :=
  fun r => (Ok tt, {| self := self r; file := file r; tick := tick r;
                      trace := trace r ++ [e] |}).

Definition next_tick : M nat :=
  fun r => (Ok (tick r), {| self := self r; file := file r; tick := S (tick r);
                            trace := trace r |}).

Definition get_self : M PriceBot := fun r => (Ok (self r), r).

Definition set_self (b : PriceBot) : M unit :=
  fun r => (Ok tt, {| self := b; file := file r; tick := tick r; trace := trace r |}).

Definition set_file (p : Products) : M unit :=
  fun r => (Ok tt, {| self := self r; file := Some p; tick := tick r; trace := trace r |}).

Definition truncate_file : M unit :=
  fun r => (Ok tt, {| self := self r; file := None; tick := tick r; trace := trace r |}).

Definition get_products : M Products := b <- get_self ;; ret (products b).

Definition set_products (p : Products) : M unit :=
  b <- get_self ;; set_self {| products := p; _remove_urls := _remove_urls b |}.

Definition set_remove_urls (u : dict str str) : M unit :=
  b <- get_self ;; set_self {| products := products b; _remove_urls := u |}.

(** [d[k]], raising [KeyError]. *)
Definition subscript {K V} `{Key K} (d : dict K V) (k : K) : M V :=
  match dict_get k d with
  | Some v => ret v
  | None => raise KeyError
  end.


(** ** The methods of [PriceBot] *)

Section Methods.
Context `{U : Unicode}.
Variable w : World.

(** [with open(self.data_file, 'w') as f: json.dump(p, f, indent=4)]: a dump
    that fails after [open] has truncated the file leaves nothing that can be
    read; one that fails in [open] leaves the file as it was. *)
Definition write_file (t : nat) (p : Products) : M unit :=
  match json_dump w t with
  | Ok _ => set_file p
  | Raise e => (if dump_truncates w t then truncate_file else ret tt) ;; raise e
  end.

(** [save_products]: the whole store is dumped; a failure is logged only. *)
Definition save_products : M unit :=
  t <- next_tick ;;
  try_except
    (p <- get_products ;;
     write_file t p)
    (fun _ => ret tt).

Definition http_get (url : str) : M Response :=
  t <- next_tick ;;
  emit (SessionGet url) ;;
  lift (session_get w t url).

Definition name_selectors : list (str * option (str * str)) :=
  [ (py "h1", Some (py "data-test", py "title"));
    (py "span", Some (py "data-test", py "title"));
    (py "h1", Some (py "class", py "product-title"));
    (py "div", Some (py "data-test", py "title"));
    (py "h1", None) ].

Definition price_selectors : list str :=
  [ py "promo-price"; py "price-block__price"; py "price";
    py "product-price"; py "current-price" ].

Definition has_class (c : str) (e : Element) : bool :=
  existsb (eqb_str c) (classes e).

(** An attribute filter of [find]: [class] matches any of the element's
    classes, another attribute its value. *)
Definition has_attr (k v : str) (e : Element) : bool :=
  if eqb_str k (py "class") then has_class v e
  else match dict_get k (attrs e) with
       | Some v' => eqb_str v' v
       | None => false
       end.

(** [soup.find(tag, attrs)] and [soup.find(tag)] *)
Definition soup_find (t : str) (a : option (str * str)) (soup : Soup) : option Element :=
  find (fun e => eqb_str (tag e) t &&
                 match a with
                 | Some (k, v) => has_attr k v e
                 | None => true
                 end) soup.

(** [soup.find_all(class_=selector)] *)
Definition find_all_class (selector : str) (soup : Soup) : list Element :=
  filter (has_class selector) soup.

(** The loop over [name_selectors]: the first selector that finds an element. *)
Fixpoint find_name (selectors : list (str * option (str * str))) (soup : Soup)
  : option Element :=
  match selectors with
  | [] => None
  | (t, a) :: rest =>
      match soup_find t a soup with
      | Some e => Some e
      | None => find_name rest soup
      end
  end.

(** The loop over [price_selectors]: for each class, the first element whose
    text holds a digit. *)
Fixpoint find_price (selectors : list str) (soup : Soup) : option Element :=
  match selectors with
  | [] => None
  | selector :: rest =>
      match find (fun e => any_isdigit (text e)) (find_all_class selector soup) with
      | Some e => Some e
      | None => find_price rest soup
      end
  end.

Definition homepage : str := py "https://www.bol.com/".

(** The body of [get_price] inside its [try]. *)
Definition get_price_body (url : str) : M (float * str) :=
  try_except (_ <- http_get homepage ;; ret tt) (fun _ => ret tt) ;;
  response <- http_get url ;;
  lift (raise_for_status response) ;;
  let soup := BeautifulSoup w (response_text response) in
  match find_name name_selectors soup with
  | None => raise ValueError
  | Some name_element =>
      let product_name := strip (text name_element) in
      match find_price price_selectors soup with
      | None => raise ValueError
      | Some price_element =>
          price <- lift (float_of_str (clean_price_text (text price_element))) ;;
          ret (convert_if_too_high price, product_name)
      end
  end.

(** [get_price]: [Some (price, name)], or [None] for [(None, None)]. *)
Definition get_price (url : str) : M (option (float * str)) :=
  try_except
    (r <- get_price_body url ;; ret (Some r))
    (fun _ => ret None).

(** [update.message.reply_text(message)] in [start], [help], [add_product]
    and [list_products], taken to return. *)
Definition reply_text (chat_id : Z) (message : str) : M unit :=
  emit (ReplyText chat_id message).

(** A call of the Bot API that no [try] of its handler guards:
    [query.answer()], [query.edit_message_text(...)] and the replies of
    [remove_product]. The world decides at the tick of the call; what the
    user gets is recorded when the call returns, and when it raises the
    exception leaves the handler. *)
Definition telegram (e : Event) : M unit :=
  t <- next_tick ;;
  lift (telegram_call w t) ;;
  emit e.

Definition help_text : str :=
  nl ++ py "🤖 Welcome to Bol.com Price Monitor Bot!" ++ nl ++ nl
  ++ py "Available commands:" ++ nl
  ++ py "/add <url> - Start monitoring a new product" ++ nl
  ++ py "/list - List all monitored products" ++ nl
  ++ py "/remove - Remove a product from monitoring" ++ nl
  ++ py "/help - Show this help message" ++ nl ++ nl
  ++ py "Simply send me a Bol.com product URL and I'll monitor its price!" ++ nl.

Definition start (chat_id : Z) : M unit := reply_text chat_id help_text.

Definition help (chat_id : Z) : M unit := start chat_id.

Definition usage_message : str :=
  py "Please provide a Bol.com product URL" ++ nl
  ++ py "Example: /add https://www.bol.com/product-url".

Definition invalid_url_message : str := py "Please provide a valid Bol.com URL".

Definition already_monitored_message : str :=
  py "This product is already being monitored!".

Definition fetching_message : str := py "🔍 Fetching product information...".

Definition fetch_failed_message : str :=
  py "Sorry, I couldn't fetch the product information. Please check if:" ++ nl
  ++ py "1. The URL is correct" ++ nl
  ++ py "2. The product is still available" ++ nl
  ++ py "3. The website is accessible" ++ nl ++ nl
  ++ py "Try again in a few minutes.".

Definition added_message (name : str) (price : float) : str :=
  py "✅ Added to monitoring:" ++ nl
  ++ py "📦 " ++ name ++ nl
  ++ py "💰 Current price: " ++ format_price price ++ nl
  ++ py "I'll notify you when the price changes!".

Definition went_wrong_message : str :=
  py "Sorry, something went wrong. Please try again.".

Definition bol_prefix : str := py "https://www.bol.com".

(** [add_product], with [context.args] and [str(update.effective_chat.id)]. *)
Definition add_product (chat_id : Z) (args : list str) : M unit :=
  try_except
    (match args with
     | [] => reply_text chat_id usage_message
     | url :: _ =>
         if negb (startswith url bol_prefix) then
           reply_text chat_id invalid_url_message
         else
           p <- get_products ;;
           (if negb (dict_in chat_id p) then set_products (dict_set chat_id [] p)
            else ret tt) ;;
           p <- get_products ;;
           mine <- subscript p chat_id ;;
           if dict_in url mine then
             reply_text chat_id already_monitored_message
           else
             reply_text chat_id fetching_message ;;
             r <- get_price url ;;
             match r with
             | Some (price, (_ :: _) as name) =>
                 t <- next_tick ;;
                 p <- get_products ;;
                 mine <- subscript p chat_id ;;
                 set_products
                   (dict_set chat_id
                      (dict_set url {| name := name; last_price := price;
                                       last_check := datetime_now w t |} mine) p) ;;
                 save_products ;;
                 reply_text chat_id (added_message name price)
             | _ => reply_text chat_id fetch_failed_message
             end
     end)
    (fun _ => reply_text chat_id went_wrong_message).

Definition no_products_message : str := py "You have no products being monitored.".

Definition list_entry (item : str * Product) : str :=
  py "📦 " ++ name (snd item) ++ nl
  ++ py "💰 Last price: " ++ format_price (last_price (snd item)) ++ nl
  ++ py "🔗 " ++ fst item ++ nl ++ nl.

(** [chat_id not in self.products or not self.products[chat_id]] *)
Definition has_no_products (chat_id : Z) (p : Products) : bool :=
  match dict_get chat_id p with
  | None => true
  | Some [] => true
  | Some (_ :: _) => false
  end.

Definition list_products (chat_id : Z) : M unit :=
  p <- get_products ;;
  if has_no_products chat_id p then reply_text chat_id no_products_message
  else
    mine <- subscript p chat_id ;;
    reply_text chat_id
      (py "📊 Your Monitored Products:" ++ nl ++ nl ++ join (map list_entry mine)).

Definition nothing_to_remove_message : str := py "You have no products to remove.".

Definition select_message : str := py "Select a product to remove:".

(** The loop of [remove_product] from index [i]: the token [rm_i] of each
    record goes into [_remove_urls], its button onto the keyboard. *)
Fixpoint remove_menu (i : nat) (items : list (str * Product))
  (urls : dict str str) (keyboard : list (str * str))
  : dict str str * list (str * str) :=
  match items with
  | [] => (urls, keyboard)
  | (url, data) :: rest =>
      let callback_data := py "rm_" ++ str_of_nat i in
      remove_menu (S i) rest
        (dict_set callback_data url urls)
        (keyboard ++ [(name data ++ py " (" ++ format_price (last_price data) ++ py ")",
                       callback_data)])
  end.

Definition remove_product (chat_id : Z) : M unit :=
  p <- get_products ;;
  if has_no_products chat_id p then
    telegram (ReplyText chat_id nothing_to_remove_message)
  else
    set_remove_urls [] ;;
    mine <- subscript p chat_id ;;
    let (urls, keyboard) := remove_menu 0 mine [] [] in
    set_remove_urls urls ;;
    telegram (ReplyKeyboard chat_id select_message keyboard).

Definition removed_message (product_name : str) : str :=
  py "✅ Removed " ++ product_name ++ py " from monitoring.".

Definition not_found_message : str := py "❌ Error: Product not found.".

Definition invalid_request_message : str := py "❌ Error: Invalid removal request.".

(** [button_callback], with [query.data]. *)
Definition button_callback (chat_id : Z) (data : str) : M unit :=
  telegram (QueryAnswer chat_id) ;;
  if startswith data (py "rm_") then
    b <- get_self ;;
    match dict_get data (_remove_urls b) with
    | Some url =>
        match dict_get chat_id (products b) with
        | Some mine =>
            match dict_get url mine with
            | Some record =>
                let product_name := name record in
                set_products (dict_set chat_id (dict_del url mine) (products b)) ;;
                save_products ;;
                telegram (EditMessageText chat_id (removed_message product_name))
            | None => telegram (EditMessageText chat_id not_found_message)
            end
        | None => telegram (EditMessageText chat_id not_found_message)
        end
    | None => telegram (EditMessageText chat_id invalid_request_message)
    end
  else ret tt.

Definition alert_message (url : str) (data : Product)
  (current_price change change_percent : float) : str :=
  py "💰 Price Change Alert!" ++ nl ++ nl
  ++ py "📦 " ++ name data ++ nl
  ++ py "Old price: " ++ format_price (last_price data) ++ nl
  ++ py "New price: " ++ format_price current_price ++ nl
  ++ py "Change: " ++ (if 0 <? change then py "📈" else py "📉") ++ py " "
  ++ format_price (abs change) ++ py " (" ++ format_f true 1 change_percent
  ++ py "%)" ++ nl ++ nl
  ++ py "🔗 " ++ url.

(** [self.updater.bot.send_message(chat_id=int(chat_id), text=message)] *)
Definition bot_send_message (chat_id : Z) (message : str) : M unit :=
  t <- next_tick ;;
  match send_message w t chat_id message with
  | Ok _ => emit (SendMessage chat_id message true)
  | Raise e => emit (SendMessage chat_id message false) ;; raise e
  end.

(** [self.products[chat_id][url][field] = value] *)
Definition update_record (chat_id : Z) (url : str) (f : Product -> Product) : M unit :=
  p <- get_products ;;
  mine <- subscript p chat_id ;;
  record <- subscript mine url ;;
  set_products (dict_set chat_id (dict_set url (f record) mine) p).

(** The body of the inner loop of [check_prices] for one [(url, data)] of the
    snapshot. [data] is the record object itself; nothing touches it between
    the snapshot and its turn, so the snapshot's fields are the stored ones. *)
Definition check_record (chat_id : Z) (item : str * Product) : M unit :=
  let (url, data) := item in
  r <- get_price url ;;
  match r with
  | None => ret tt
  | Some (current_price, _) =>
      if negb (current_price =? last_price data) then
        let change := current_price - last_price data in
        q <- lift (truediv change (last_price data)) ;;
        let change_percent := q * 100 in
        let message := alert_message url data current_price change change_percent in
        try_except (bot_send_message chat_id message) (fun _ => ret tt) ;;
        update_record chat_id url
          (fun d => {| name := name d; last_price := current_price;
                       last_check := last_check d |}) ;;
        t <- next_tick ;;
        update_record chat_id url
          (fun d => {| name := name d; last_price := last_price d;
                       last_check := datetime_now w t |}) ;;
        save_products
      else ret tt
  end.

(** The body of the outer loop: the records of one chat, as the store holds
    them when its turn comes. *)
Definition check_chat (chat_id : Z) : M unit :=
  p <- get_products ;;
  mine <- subscript p chat_id ;;
  for_each mine (check_record chat_id).

(** The two nested [for] loops: one sweep over the store. *)
Definition sweep : M unit :=
  p <- get_products ;;
  for_each (keys p) check_chat.

(** One turn of the [while True] of [check_prices]: the sweep inside its
    [try], any exception swallowed. *)
Definition check_prices_once : M unit :=
  try_except sweep (fun _ => ret tt).

(** [n] turns of the loop of [check_prices]. *)
Fixpoint check_prices (n : nat) : M unit :=
  match n with
  | O => ret tt
  | S n' => check_prices_once ;; check_prices n'
  end.

(** What the dispatcher and the polling thread run, one at a time. *)
Inductive Update :=
| CmdStart (chat_id : Z)
| CmdHelp (chat_id : Z)
| CmdAdd (chat_id : Z) (args : list str)
| CmdList (chat_id : Z)
| CmdRemove (chat_id : Z)
| Callback (chat_id : Z) (data : str)
| Poll.

Definition handle (u : Update) : M unit :=
  match u with
  | CmdStart c => start c
  | CmdHelp c => help c
  | CmdAdd c args => add_product c args
  | CmdList c => list_products c
  | CmdRemove c => remove_product c
  | Callback c data => button_callback c data
  | Poll => check_prices_once
  end.

End Methods.


(** The bot as [__init__] leaves it when there is no data file. *)
Definition fresh : Run :=
  {| self := {| products := []; _remove_urls := [] |};
     file := None; tick := 0; trace := [] |}.

(** The runs that updates and polling turns lead to from [r0], each in a
    world of its own. *)
Inductive reachable `{U : Unicode} (r0 : Run) : Run -> Prop :=
| reach_refl : reachable r0 r0
| reach_step (w : World) (u : Update) (r : Run) :
    reachable r0 r -> reachable r0 (snd (handle w u r)).


(** ** Fixtures for the concrete runs below *)

(** A page with one title and one price element. *)
Definition page (title price_text : str) : Soup :=
  [ {| tag := py "h1"; attrs := [(py "data-test", py "title")]; classes := [];
       text := title |};
    {| tag := py "span"; attrs := []; classes := [py "promo-price"];
       text := price_text |} ].

(** A shop whose every page shows the title [title] and, at tick [t], the
    price text [price_at t] (the body of a response is that text); alerts
    are delivered when [delivers], the calls on an update always return, and
    the file is always written. *)
Definition shop (title : str) (price_at : nat -> str) (delivers : bool) : World :=
  {| session_get := fun t _ =>
       Ok {| raise_for_status := Ok tt; response_text := price_at t |};
     BeautifulSoup := fun body => page title body;
     send_message := fun _ _ _ => if delivers then Ok tt else Raise TelegramError;
     datetime_now := fun t => py "2024-05-01T12:00:0" ++ str_of_nat t;
     json_dump := fun _ => Ok tt;
     dump_truncates := fun _ => false;
     telegram_call := fun _ => Ok tt |}.

(** A world without network. *)
Definition offline : World :=
  {| session_get := fun _ _ => Raise RequestException;
     BeautifulSoup := fun _ => [];
     send_message := fun _ _ _ => Raise TelegramError;
     datetime_now := fun _ => [];
     json_dump := fun _ => Ok tt;
     dump_truncates := fun _ => false;
     telegram_call := fun _ => Raise TelegramError |}.

Definition url_a : str := py "https://www.bol.com/nl/p/a/1".
Definition url_b : str := py "https://www.bol.com/nl/p/b/2".

Definition run_of {A} (m : M A) (r : Run) : Run := snd (m r).


(** A table for the Latin-1 range: the ASCII digits are decimal digits,
    superscript one, two and three are digits without a decimal value, and
    the white space is the ASCII one, U+0085 and U+00A0. Outside Latin-1 the
    instance knows no digit and no space. *)
Definition latin1_isdigit (c : char) : bool :=
  ((48 <=? c) && (c <=? 57) || (c =? 178) || (c =? 179) || (c =? 185))%N.

Definition latin1_isspace (c : char) : bool :=
  ((9 <=? c) && (c <=? 13) || (28 <=? c) && (c <=? 32) || (c =? 133) || (c =? 160))%N.

Definition latin1_decimal (c : char) : option N :=
  if ((48 <=? c) && (c <=? 57))%N then Some (c - 48)%N else None.

#[export, refine] Instance latin1 : Unicode := {|
  isdigit := latin1_isdigit;
  isspace := latin1_isspace;
  decimal := latin1_decimal
|}.
Proof.
  - intros c. unfold latin1_isspace, latin1_isdigit.
    rewrite !orb_true_iff, !andb_true_iff, !N.leb_le, !N.eqb_eq. intros Hs.
    apply not_true_is_false.
    rewrite !orb_true_iff, !andb_true_iff, !N.leb_le, !N.eqb_eq. lia.
  - reflexivity.
  - reflexivity.
  - reflexivity.
  - reflexivity.
  - intros c d. unfold latin1_decimal, latin1_isdigit.
    destruct ((48 <=? c) && (c <=? 57))%N eqn:E; [|discriminate].
    intros [= <-]. apply andb_true_iff in E. rewrite !N.leb_le in E.
    split; [reflexivity | lia].
  - intros c Hc. unfold latin1_decimal.
    destruct ((48 <=? c) && (c <=? 57))%N eqn:E; [reflexivity|].
    apply andb_false_iff in E. rewrite !N.leb_gt in E. lia.
Defined.

(** [0 <= x], which no nan satisfies. *)
Definition nonneg (x : float) : bool := (0 <=? x)%float.

(** The sign bit of a number; a nan has none. *)
Definition sf_signed (s : bool) (x : spec_float) : bool :=
  match x with
  | S754_zero s' | S754_infinity s' | S754_finite s' _ _ => Bool.eqb s s'
  | S754_nan => false
  end.

Definition sf_nonneg (x : spec_float) : bool :=
  match x with
  | S754_zero _ => true
  | S754_infinity s | S754_finite s _ _ => negb s
  | S754_nan => false
  end.

(** The characters of a price written in ASCII: digits, period, comma. *)
Definition price_char (c : char) : bool :=
  ((48 <=? c) && (c <=? 57) || (c =? period) || (c =? comma))%N.

(** What [get_price] returns, given how the request for the page ended. *)
Definition scrape `{U : Unicode} (w : World) (page : Exc Response) : option (float * str) :=
  match page with
  | Raise _ => None
  | Ok response =>
      match raise_for_status response with
      | Raise _ => None
      | Ok _ =>
          let soup := BeautifulSoup w (response_text response) in
          match find_name name_selectors soup, find_price price_selectors soup with
          | Some name_element, Some price_element =>
              match float_of_str (clean_price_text (text price_element)) with
              | Ok price => Some (convert_if_too_high price, strip (text name_element))
              | Raise _ => None
              end
          | _, _ => None
          end
      end
  end.

(** The run after the two requests of [get_price]. *)
Definition fetched (r : Run) (url : str) : Run :=
  {| self := self r; file := file r; tick := S (S (tick r));
     trace := trace r ++ [SessionGet homepage; SessionGet url] |}.

(** The run after [save_products]. *)
Definition saved (w : World) (r : Run) : Run :=
  {| self := self r;
     file := match json_dump w (tick r) with
             | Ok _ => Some (products (self r))
             | Raise _ => if dump_truncates w (tick r) then None else file r
             end;
     tick := S (tick r); trace := trace r |}.

(** The run with one more event. *)
Definition said (r : Run) (e : Event) : Run :=
  {| self := self r; file := file r; tick := tick r; trace := trace r ++ [e] |}.

(** ** Invariants of the store *)

Definition unique_keys {K V} (d : dict K V) : Prop := NoDup (keys d).

(** No chat twice, and no URL twice under a chat. *)
Definition well_keyed (p : Products) : Prop :=
  unique_keys p /\ forall c mine, In (c, mine) p -> unique_keys mine.

(** Every record of the store, under whatever chat and URL, satisfies [P]. *)
Definition all_records (P : str -> Product -> Prop) (p : Products) : Prop :=
  forall c mine url rec, In (c, mine) p -> In (url, rec) mine -> P url rec.

(** The records the store holds for the pair (chat, URL). *)
Definition records_of (c : Z) (url : str) (p : Products) : list Product :=
  flat_map
    (fun cm => if keyb c (fst cm)
               then map snd (filter (fun ur => keyb url (fst ur)) (snd cm))
               else [])
    p.

(** [m] preserves the property [Q] of the store, and what it returns
    satisfies [R]. *)
Definition keeps {A} (Q : Products -> Prop) (R : A -> Prop) (m : M A) : Prop :=
  forall r, Q (products (self r)) ->
    Q (products (self (snd (m r)))) /\ forall a, fst (m r) = Ok a -> R a.

(** Every stored URL starts with the bol.com prefix. *)
Definition bol_url (url : str) (_ : Product) : Prop :=
  startswith url bol_prefix = true.

(** Every stored price is at least zero. *)
Definition price_nonneg (_ : str) (rec : Product) : Prop :=
  nonneg (last_price rec) = true.


(** ** Concrete runs *)

(** Chat 7 adds the kettle at [url_a] while the page shows "€ 38,99". *)
Definition run_added : Run :=
  run_of (add_product (shop (py "Kettle") (fun _ => py "€ 38,99") true) 7 [url_a]) fresh.

(** What the clean-up leaves: a digit or the period. *)
Definition digit_or_period `{U : Unicode} (c : char) : Prop :=
  isdigit c = true \/ c = period.

(** The alert [check_prices] builds for a record whose price went from
    [last_price data] to [current_price]. *)
Definition alert_of (url : str) (data : Product) (current_price : float) : str :=
  let change := (current_price - last_price data)%float in
  alert_message url data current_price change
    (change / last_price data * 100)%float.

(** The run after a record was found changed: the alert was handed to the
    Telegram API at the tick after the two requests, the record got the new
    price and the time of the tick after the next, and the store was dumped. *)
Definition repriced (w : World) (r : Run) (chat_id : Z) (url : str)
  (data : Product) (current_price : float)
  (mine : dict str Product) (rec : Product) : Run :=
  let t := tick r in
  let message := alert_of url data current_price in
  let p := dict_set chat_id
             (dict_set url {| name := name rec; last_price := current_price;
                              last_check := datetime_now w (3 + t) |} mine)
             (products (self r)) in
  {| self := {| products := p; _remove_urls := _remove_urls (self r) |};
     file := match json_dump w (4 + t) with
             | Ok _ => Some p
             | Raise _ => if dump_truncates w (4 + t) then None else file r
             end;
     tick := 5 + t;
     trace := trace r ++
       [SessionGet homepage; SessionGet url;
        SendMessage chat_id message
          match send_message w (2 + t) chat_id message with
          | Ok _ => true
          | Raise _ => false
          end] |}.

(** What a run did after [r]. *)
Definition events_since (r r' : Run) : list Event :=
  skipn (List.length (trace r)) (trace r').

(** The world [w] with a Telegram API that delivers every message. *)
Definition delivering (w : World) : World :=
  {| session_get := session_get w;
     BeautifulSoup := BeautifulSoup w;
     send_message := fun _ _ _ => Ok tt;
     datetime_now := datetime_now w;
     json_dump := json_dump w;
     dump_truncates := dump_truncates w;
     telegram_call := fun _ => Ok tt |}.

(** Chat 7 adds [url_a] while the page shows "0,00", then [url_b] at "12,50". *)
Definition run_free : Run :=
  run_of (add_product (shop (py "Gift card") (fun _ => py "0,00") true) 7 [url_a]) fresh.

Definition run_free_two : Run :=
  run_of (add_product (shop (py "Toaster") (fun _ => py "12,50") true) 7 [url_b]) run_free.

(** A record as the shop's pages and clock make it. *)
Definition item (title : str) (price : float) (t : nat) : Product :=
  {| name := title; last_price := price;
     last_check := py "2024-05-01T12:00:0" ++ str_of_nat t |}.

(** The callback data of the [i]-th button of a remove menu. *)
Definition token (i : nat) : str := py "rm_" ++ str_of_nat i.

(** The label of a button of the remove menu. *)
Definition button_label (data : Product) : str :=
  name data ++ py " (" ++ format_price (last_price data) ++ py ")".

(** The buttons and the token map of a remove menu whose first token is
    [rm_i]: one per record, in the order of the dict. *)
Fixpoint menu_buttons (i : nat) (items : list (str * Product)) : list (str * str) :=
  match items with
  | [] => []
  | (_, data) :: rest => (button_label data, token i) :: menu_buttons (S i) rest
  end.

Fixpoint menu_tokens (i : nat) (items : list (str * Product)) : dict str str :=
  match items with
  | [] => []
  | (url, _) :: rest => (token i, url) :: menu_tokens (S i) rest
  end.

(** The run after a call of the Bot API that returned, and after one that
    raised. *)
Definition told (r : Run) (e : Event) : Run :=
  {| self := self r; file := file r; tick := S (tick r); trace := trace r ++ [e] |}.

Definition untold (r : Run) : Run :=
  {| self := self r; file := file r; tick := S (tick r); trace := trace r |}.

(** Whether the Bot API accepts the call made in the run [r]. *)
Definition accepts (w : World) (r : Run) : bool :=
  match telegram_call w (tick r) with
  | Ok _ => true
  | Raise _ => false
  end.

(** The run in which [remove_product] has put the menu of [mine] into the
    token map and has not replied yet. *)
Definition with_menu (r : Run) (mine : dict str Product) : Run :=
  {| self := {| products := products (self r);
                _remove_urls := menu_tokens 0 mine |};
     file := file r; tick := tick r; trace := trace r |}.

(** The run in which [button_callback] has answered the query, removed the
    record of [url] from the records [mine] of the chat and dumped the store,
    and has not confirmed yet. *)
Definition removed (w : World) (r : Run) (chat_id : Z) (url : str)
  (mine : dict str Product) : Run :=
  let p := dict_set chat_id (dict_del url mine) (products (self r)) in
  {| self := {| products := p; _remove_urls := _remove_urls (self r) |};
     file := match json_dump w (S (tick r)) with
             | Ok _ => Some p
             | Raise _ => if dump_truncates w (S (tick r)) then None else file r
             end;
     tick := 2 + tick r;
     trace := trace r ++ [QueryAnswer chat_id] |}.

(** A shop in which chat 7 watches the kettle and the toaster and asks for
    the remove menu twice; it removes the kettle on the second menu, asks for
    the menu a third time, and then presses the first button of the first
    menu. *)
Definition toaster_shop : World :=
  shop (py "Toaster") (fun _ => py "12,50") true.

Definition run_two : Run := run_of (add_product toaster_shop 7 [url_b]) run_added.

Definition menu_one : Run := run_of (remove_product toaster_shop 7) run_two.

Definition menu_two : Run := run_of (remove_product toaster_shop 7) menu_one.

Definition kettle_removed : Run :=
  run_of (button_callback toaster_shop 7 (token 0)) menu_two.

Definition menu_three : Run := run_of (remove_product toaster_shop 7) kettle_removed.

(** ** More runs of the handlers *)

(** The dict of a chat, empty when the chat is unknown. *)
Definition dict_of (chat_id : Z) (p : Products) : dict str Product :=
  match dict_get chat_id p with
  | Some mine => mine
  | None => []
  end.

(** The run after [add_product] stored a new record. *)
Definition added (w : World) (r : Run) (chat_id : Z) (url : str)
  (price : float) (title : str) : Run :=
  let t := tick r in
  let rec := {| name := title; last_price := price;
                last_check := datetime_now w (2 + t) |} in
  let p := dict_set chat_id (dict_of chat_id (products (self r)) ++ [(url, rec)])
             (products (self r)) in
  {| self := {| products := p; _remove_urls := _remove_urls (self r) |};
     file := match json_dump w (3 + t) with
             | Ok _ => Some p
             | Raise _ => if dump_truncates w (3 + t) then None else file r
             end;
     tick := 4 + t;
     trace := trace r ++
       [ReplyText chat_id fetching_message; SessionGet homepage; SessionGet url;
        ReplyText chat_id (added_message title price)] |}.

(** The run after [add_product] could not fetch the product: a chat seen for
    the first time has got its empty dict, in memory only. *)
Definition not_added (r : Run) (chat_id : Z) (url : str) : Run :=
  {| self := {| products :=
                  if dict_in chat_id (products (self r)) then products (self r)
                  else products (self r) ++ [(chat_id, [])];
                _remove_urls := _remove_urls (self r) |};
     file := file r;
     tick := 2 + tick r;
     trace := trace r ++
       [ReplyText chat_id fetching_message; SessionGet homepage; SessionGet url;
        ReplyText chat_id fetch_failed_message] |}.

(** The message [list_products] sends for the records [mine]. *)
Definition listing (mine : dict str Product) : str :=
  py "📊 Your Monitored Products:" ++ nl ++ nl ++ join (map list_entry mine).

(** Whether the callback [data] of chat [chat_id] stands, in the token map
    [urls], for the pair ([c], [u]). *)
Definition selects (urls : dict str str) (chat_id : Z) (data : str)
  (c : Z) (u : str) : bool :=
  startswith data (py "rm_") && keyb c chat_id &&
  match dict_get data urls with
  | Some url => keyb u url
  | None => false
  end.

(** ** A sweep that finds nothing new *)

(** The run after [get_price] was called for each of [urls] in turn. *)
Definition requested (r : Run) (urls : list str) : Run :=
  {| self := self r; file := file r;
     tick := 2 * List.length urls + tick r;
     trace := trace r ++
       flat_map (fun url => [SessionGet homepage; SessionGet url]) urls |}.

(** The URLs of the store in the order of a sweep. *)
Definition sweep_urls (p : Products) : list str :=
  flat_map (fun c => keys (dict_of c p)) (keys p).

(** Whenever [get_price] is called for a record of [p], it fails or returns
    the stored price. *)
Definition nothing_new `{U : Unicode} (w : World) (p : Products) : Prop :=
  forall c mine url rec r0,
    In (c, mine) p -> In (url, rec) mine ->
    match fst (get_price w url r0) with
    | Ok (Some (price, _)) => (price =? last_price rec)%float = true
    | _ => True
    end.

(** What the store watches: per chat, in order, each URL with its name. *)
Definition titles (p : Products) : list (Z * list (str * str)) :=
  map (fun cm => (fst cm, map (fun ur => (fst ur, name (snd ur))) (snd cm))) p.

(** ** What the parse reads *)

(** The digits of a raw price text, in order. *)
Definition digits_of `{U : Unicode} (raw : str) : str := filter isdigit raw.

(** The kept characters of a raw price text, commas turned into periods. *)
Definition separated `{U : Unicode} (raw : str) : str :=
  replace comma period (filter kept raw).

(** The number of decimals the clean-up gives a raw price text: the digits
    after its last comma or period, none when it has neither. *)
Definition decimals_of `{U : Unicode} (raw : str) : N :=
  match count period (separated raw) with
  | O => 0%N
  | S _ => N.of_nat (List.length (after_last period (separated raw)))
  end.

(** ** The selector loops of [get_price] *)

(** Whether an element answers a name selector. *)
Definition name_match (sel : str * option (str * str)) (e : Element) : bool :=
  eqb_str (tag e) (fst sel) &&
  match snd sel with
  | Some (k, v) => has_attr k v e
  | None => true
  end.

(** Whether an element answers a price selector: it carries the class and
    its text holds a digit. *)
Definition price_match `{U : Unicode} (selector : str) (e : Element) : bool :=
  has_class selector e && any_isdigit (text e).

(** [e] is the first element of the page, in document order, that answers
    the first selector, in the order of [sels], that any element answers. *)
Definition first_match {S} (m : S -> Element -> bool) (sels : list S)
  (soup : Soup) (e : Element) : Prop :=
  exists pre sel post before after,
    sels = pre ++ sel :: post
    /\ soup = before ++ e :: after
    /\ m sel e = true
    /\ (forall e', In e' before -> m sel e' = false)
    /\ (forall s e', In s pre -> In e' soup -> m s e' = false).

(** No element answers any selector. *)
Definition no_match {S} (m : S -> Element -> bool) (sels : list S)
  (soup : Soup) : Prop :=
  forall s e, In s sels -> In e soup -> m s e = false.

(** ** The store on file *)

(** The store on file: the empty store when there is no file or none that
    can be read. *)
Definition on_file (r : Run) : Products :=
  match file r with
  | Some p => p
  | None => []
  end.

(** The file holds the records the bot holds in memory, pair by pair. *)
Definition mirrored (r : Run) : Prop :=
  forall c u, records_of c u (on_file r) = records_of c u (products (self r)).

(** A disk on which no dump fails. *)
Definition reliable_disk (w : World) : Prop :=
  forall t, json_dump w t = Ok tt.

(** ** Formatted prices *)

(** A finite number without the sign bit. *)
Definition plain (x : float) : bool :=
  match Prim2SF x with
  | S754_zero s | S754_finite s _ _ => negb s
  | _ => false
  end.

(** An ASCII digit. *)
Definition ascii_digit_char (c : char) : bool := ((48 <=? c) && (c <=? 57))%N.

(** Whether the hundredths [n] print as two ASCII digits. *)
Definition two_digits (n : N) : bool :=
  match repeat 48%N (2 - List.length (str_of_N n)) ++ str_of_N n with
  | [d1; d2] => ascii_digit_char d1 && ascii_digit_char d2
  | _ => false
  end.

(** ** A sweep, record by record *)







(** * Facts *)

Local Close Scope float_scope.
Local Open Scope N_scope.
(** * Text: the clean-up and its specification *)

Section TextFacts.
Context `{U : Unicode}.

Lemma filter_dropwhile {A} (k p : A -> bool) (l : list A) :
  (forall c, p c = true -> k c = false) ->
  filter k (dropwhile p l) = filter k l.
Proof.
  intros Hpk. induction l as [|c l IH]; simpl; [reflexivity|].
  destruct (p c) eqn:Hp; [|reflexivity].
  rewrite (Hpk c Hp). exact IH.
Qed.

Lemma space_not_kept (c : char) : isspace c = true -> kept c = false.
Proof.
  intros Hs. unfold kept. rewrite (space_not_digit c Hs). simpl.
  apply orb_false_iff. split; apply N.eqb_neq; intros ->.
  - rewrite period_not_space in Hs. discriminate.
  - rewrite comma_not_space in Hs. discriminate.
Qed.

(** [strip] only removes characters the filter would remove. *)
Lemma filter_kept_strip (s : str) : filter kept (strip s) = filter kept s.
Proof.
  unfold strip.
  rewrite filter_rev, (filter_dropwhile kept isspace) by apply space_not_kept.
  rewrite filter_rev, rev_involutive.
  apply filter_dropwhile, space_not_kept.
Qed.

Lemma takewhile_dropwhile {A} (p : A -> bool) (l : list A) :
  takewhile p l ++ dropwhile p l = l.
Proof.
  induction l as [|c l IH]; simpl; [reflexivity|].
  destruct (p c); simpl; [now rewrite IH | reflexivity].
Qed.

Lemma takewhile_all {A} (p : A -> bool) (l : list A) :
  forallb p (takewhile p l) = true.
Proof.
  induction l as [|c l IH]; simpl; [reflexivity|].
  destruct (p c) eqn:Hp; simpl; [now rewrite Hp | reflexivity].
Qed.

Lemma dropwhile_head {A} (p : A -> bool) (l : list A) c l' :
  dropwhile p l = c :: l' -> p c = false.
Proof.
  induction l as [|d l IH]; simpl; [discriminate|].
  destruct (p d) eqn:Hp; [exact IH|]. now intros [= <- <-].
Qed.

Lemma dropwhile_nil {A} (p : A -> bool) (l : list A) :
  dropwhile p l = [] -> forallb p l = true.
Proof.
  induction l as [|d l IH]; simpl; [reflexivity|].
  destruct (p d); [exact IH | discriminate].
Qed.

Lemma forallb_rev {A} (p : A -> bool) (l : list A) :
  forallb p (rev l) = forallb p l.
Proof.
  induction l as [|c l IH]; simpl; [reflexivity|].
  rewrite forallb_app, IH. simpl. rewrite andb_true_r. apply andb_comm.
Qed.

Lemma is_not_false (x c : char) : is_not x c = false <-> c = x.
Proof.
  unfold is_not. rewrite negb_false_iff. apply N.eqb_eq.
Qed.

Lemma count_none (x : char) (s : str) :
  forallb (is_not x) s = true -> count x s = 0%nat.
Proof.
  unfold count. induction s as [|c s IH]; simpl; [reflexivity|].
  rewrite andb_true_iff. intros [Hc Hs]. unfold is_not in Hc.
  apply negb_true_iff in Hc. rewrite N.eqb_sym, Hc. auto.
Qed.

(** A text with the separator falls apart at its last occurrence. *)
Lemma last_occurrence (x : char) (s : str) :
  count x s <> 0%nat ->
  s = before_last x s ++ x :: after_last x s /\
  forallb (is_not x) (after_last x s) = true.
Proof.
  intros Hc. unfold before_last, after_last.
  assert (Hall := takewhile_all (is_not x) (rev s)).
  assert (Hsplit := takewhile_dropwhile (is_not x) (rev s)).
  destruct (dropwhile (is_not x) (rev s)) as [|c d] eqn:Hd.
  - exfalso. apply Hc. apply dropwhile_nil in Hd.
    apply count_none. rewrite <- (rev_involutive s), forallb_rev. exact Hd.
  - apply dropwhile_head in Hd as Hx. apply is_not_false in Hx. subst c.
    split.
    + transitivity (rev (takewhile (is_not x) (rev s) ++ x :: d)).
      * now rewrite Hsplit, rev_involutive.
      * rewrite rev_app_distr. simpl. now rewrite <- app_assoc.
    + rewrite forallb_rev. exact Hall.
Qed.

Lemma split_not_nil (x : char) (s : str) : split x s <> [].
Proof.
  destruct s as [|c s]; simpl; [discriminate|].
  destruct (c =? x); [discriminate|].
  destruct (split x s); discriminate.
Qed.

Lemma split_app (x : char) (a b : str) :
  split x (a ++ x :: b) = split x a ++ split x b.
Proof.
  induction a as [|c a IH]; simpl.
  - now rewrite N.eqb_refl.
  - destruct (c =? x); [now rewrite IH|].
    rewrite IH. destruct (split x a) as [|p ps] eqn:Hs; [|reflexivity].
    now apply split_not_nil in Hs.
Qed.

Lemma split_none (x : char) (s : str) :
  forallb (is_not x) s = true -> split x s = [s].
Proof.
  induction s as [|c s IH]; simpl; [reflexivity|].
  rewrite andb_true_iff. intros [Hc Hs]. unfold is_not in Hc.
  apply negb_true_iff in Hc. rewrite Hc, (IH Hs). reflexivity.
Qed.

Lemma join_split (x : char) (s : str) :
  join (split x s) = filter (is_not x) s.
Proof.
  unfold join. induction s as [|c s IH]; simpl; [reflexivity|].
  unfold is_not at 1. destruct (c =? x); simpl; [exact IH|].
  destruct (split x s) as [|p ps] eqn:Hs; [now apply split_not_nil in Hs|].
  simpl in *. now rewrite IH.
Qed.

(** The parts before the last one, joined, and the last part. *)
Lemma split_last_occurrence (x : char) (s : str) :
  count x s <> 0%nat ->
  join (removelast (split x s)) = filter (is_not x) (before_last x s) /\
  last (split x s) [] = after_last x s.
Proof.
  intros Hc. destruct (last_occurrence x s Hc) as [Hs Hb].
  rewrite Hs at 1 3. rewrite split_app, (split_none x _ Hb).
  rewrite removelast_last, last_last, join_split. auto.
Qed.

Lemma replace_comma (s : str) :
  replace comma period s = map (fun c => if c =? comma then period else c) s.
Proof. reflexivity. Qed.

(** The clean-up of [get_price] is the normalization the specification
    describes. *)
Lemma clean_price_text_as_specified (raw : str) :
  clean_price_text raw = normalized_as_specified raw.
Proof.
  unfold clean_price_text, normalized_as_specified.
  rewrite filter_kept_strip, replace_comma.
  set (t := map (fun c => if c =? comma then period else c) (filter kept raw)).
  destruct (1 <? count period t)%nat eqn:Hc; [|reflexivity].
  apply Nat.ltb_lt in Hc.
  destruct (split_last_occurrence period t) as [-> ->]; [lia | reflexivity].
Qed.

Lemma startswith_app (p s : str) : startswith (p ++ s) p = true.
Proof.
  induction p as [|c p IH]; simpl; [now destruct s|].
  now rewrite N.eqb_refl, IH.
Qed.

End TextFacts.
(** * Floats *)

Lemma SFcompare_antisym (x y : spec_float) :
  SFcompare y x = option_map CompOpp (SFcompare x y).
Proof.
  destruct x as [sx|sx| |sx mx ex], y as [sy|sy| |sy my ey]; simpl;
    try reflexivity; try (destruct sy; reflexivity);
    try (destruct sx; reflexivity);
    try (destruct sx, sy; reflexivity).
  change (PosDef.Pos.compare_cont Eq my mx) with (Pos.compare my mx).
  change (PosDef.Pos.compare_cont Eq mx my) with (Pos.compare mx my).
  rewrite (Z.compare_antisym ex ey), (Pos.compare_antisym mx my).
  destruct sx, sy; try reflexivity;
    destruct (ex ?= ey)%Z; reflexivity.
Qed.

Lemma leb_not_gt (x y : float) :
  (x <=? y)%float = true -> (y <? x)%float = false.
Proof.
  rewrite leb_spec, ltb_spec. unfold SFleb, SFltb.
  rewrite (SFcompare_antisym (Prim2SF x) (Prim2SF y)).
  destruct (SFcompare (Prim2SF x) (Prim2SF y)) as [[]|]; simpl; congruence.
Qed.

Lemma ltb_not_leb (x y : float) :
  (y <? x)%float = true -> (x <=? y)%float = false.
Proof.
  intros Hlt. destruct (x <=? y)%float eqn:Hle; [|reflexivity].
  apply leb_not_gt in Hle. congruence.
Qed.

Lemma nonneg_spec (x : float) : nonneg x = sf_nonneg (Prim2SF x).
Proof.
  unfold nonneg. rewrite leb_spec.
  change (Prim2SF 0) with (S754_zero false).
  destruct (Prim2SF x) as [s|[]| |[] m e]; reflexivity.
Qed.

Lemma signed_nonneg (x : spec_float) : sf_signed false x = true -> sf_nonneg x = true.
Proof. destruct x as [[]|[]| |[] m e]; simpl; congruence. Qed.

(** *** Rounding keeps the sign *)

Lemma shr_1_nonneg (mrs : shr_record) :
  (0 <= shr_m mrs)%Z -> (0 <= shr_m (shr_1 mrs))%Z.
Proof.
  destruct mrs as [m r s]. simpl.
  destruct m as [|[p|p|]|p]; simpl; lia.
Qed.

Lemma iter_pos_nonneg (n : positive) (mrs : shr_record) :
  (0 <= shr_m mrs)%Z -> (0 <= shr_m (iter_pos shr_1 n mrs))%Z.
Proof.
  revert mrs. induction n as [n IH|n IH|]; intros mrs Hm; simpl.
  - apply IH, IH, shr_1_nonneg, Hm.
  - apply IH, IH, Hm.
  - apply shr_1_nonneg, Hm.
Qed.

Lemma shr_fexp_nonneg (m e : Z) (l : location) :
  (0 <= m)%Z -> (0 <= shr_m (fst (shr_fexp prec emax m e l)))%Z.
Proof.
  intros Hm. unfold shr_fexp, shr.
  assert (Hr : (0 <= shr_m (shr_record_of_loc m l))%Z)
    by (destruct l as [|[]]; exact Hm).
  destruct (fexp prec emax (Zdigits2 m + e) - e)%Z; simpl; try exact Hr.
  apply iter_pos_nonneg, Hr.
Qed.

Lemma round_nearest_even_nonneg (m : Z) (l : location) :
  (0 <= m)%Z -> (0 <= round_nearest_even m l)%Z.
Proof.
  intros Hm. destruct l as [|[]]; simpl; try lia.
  destruct (IntDef.Z.even m); lia.
Qed.

Lemma binary_round_aux_signed (s : bool) (m e : Z) (l : location) :
  (0 <= m)%Z -> sf_signed s (binary_round_aux prec emax s m e l) = true.
Proof.
  intros Hm. unfold binary_round_aux.
  assert (H1 := shr_fexp_nonneg m e l Hm).
  destruct (shr_fexp prec emax m e l) as [mrs' e'] eqn:E1. simpl in H1.
  assert (H2 := shr_fexp_nonneg _ e' loc_Exact
                  (round_nearest_even_nonneg _ (loc_of_shr_record mrs') H1)).
  destruct (shr_fexp prec emax _ e' loc_Exact) as [mrs'' e''] eqn:E2. simpl in H2.
  destruct (shr_m mrs'') as [|p|p]; simpl.
  - apply eqb_reflx.
  - destruct (e'' <=? 971)%Z; simpl; apply eqb_reflx.
  - lia.
Qed.

Lemma binary_round_signed (s : bool) (m : positive) (e : Z) :
  sf_signed s (binary_round prec emax s m e) = true.
Proof.
  unfold binary_round.
  destruct (shl_align m e _) as [mz ez].
  apply binary_round_aux_signed. lia.
Qed.

Lemma SFdiv_signed (sx sy : bool) (x : spec_float) (my : positive) (ey : Z) :
  sf_signed sx x = true ->
  sf_signed (xorb sx sy) (SFdiv prec emax x (S754_finite sy my ey)) = true.
Proof.
  destruct x as [s|s| |s m e]; simpl; try discriminate;
    intros Hs; apply eqb_prop in Hs; subst s; try apply eqb_reflx.
  unfold SFdiv_core_binary.
  set (m' := match _ with 0%Z => Z.pos m | Z.pos _ => _ | Z.neg _ => 0%Z end).
  assert (Hm' : (0 <= m')%Z).
  { unfold m'. destruct (_ - _ - _)%Z; try lia. apply Z.shiftl_nonneg. lia. }
  assert (Hq := Z_div_mod m' (Z.pos my) eq_refl).
  change IntDef.Z.div_eucl with Z.div_eucl.
  destruct (Z.div_eucl m' (Z.pos my)) as [q r].
  apply binary_round_aux_signed. nia.
Qed.

Lemma SFldexp_signed (s : bool) (x : spec_float) (e : Z) :
  sf_signed s x = true -> sf_signed s (SFldexp prec emax x e) = true.
Proof.
  destruct x as [s'|s'| |s' m' e']; simpl; try easy.
  intros Hs. apply eqb_prop in Hs. subst s'. apply binary_round_signed.
Qed.

(** [SF2Prim] builds its float by rounding: the sign survives whether or not
    the mantissa fits. *)
Lemma SF2Prim_signed (x : spec_float) :
  sf_signed false x = true -> sf_signed false (Prim2SF (SF2Prim x)) = true.
Proof.
  destruct x as [[]|[]| |[] m e]; simpl; try discriminate; try reflexivity.
  intros _. rewrite Z_ldexp_spec, of_uint63_spec.
  apply SFldexp_signed. unfold binary_normalize.
  match goal with
  | |- context [Uint63Axioms.to_Z ?i] =>
      pose proof (Uint63.to_Z_bounded i) as Hb;
      destruct (Uint63Axioms.to_Z i) as [|p|p]
  end.
  - reflexivity.
  - apply binary_round_signed.
  - lia.
Qed.

Lemma decimal_to_float_nonneg (n k : N) : nonneg (decimal_to_float n k) = true.
Proof.
  rewrite nonneg_spec. apply signed_nonneg. unfold decimal_to_float.
  apply SF2Prim_signed.
  destruct (10 ^ k)%N as [|p] eqn:Hp.
  - exfalso. revert Hp. apply N.pow_nonzero. discriminate.
  - simpl. apply (SFdiv_signed false false). destruct n; reflexivity.
Qed.

Lemma prim_100 : Prim2SF 100 = S754_finite false 7036874417766400 (-46).
Proof. reflexivity. Qed.

Lemma div_100_nonneg (x : float) : nonneg x = true -> nonneg (x / 100) = true.
Proof.
  rewrite !nonneg_spec, div_spec, prim_100. unfold SF64div.
  destruct (Prim2SF x) as [s|s| |s m e] eqn:Hx; try discriminate.
  - reflexivity.
  - destruct s; [discriminate | reflexivity].
  - destruct s; [discriminate | intros _].
    apply signed_nonneg, (SFdiv_signed false false). reflexivity.
Qed.

Lemma convert_if_too_high_nonneg (x : float) :
  nonneg x = true -> nonneg (convert_if_too_high x) = true.
Proof.
  intros Hx. unfold convert_if_too_high.
  destruct (1000 <? x)%float; [apply div_100_nonneg, Hx | exact Hx].
Qed.

Lemma float_of_str_nonneg `{U : Unicode} (s : str) (x : float) :
  float_of_str s = Ok x -> nonneg x = true.
Proof.
  unfold float_of_str.
  destruct (split period s) as [|ip [|fp [|]]]; try discriminate.
  - destruct ip; [discriminate|].
    destruct (digits_value 0 _); [|discriminate].
    intros [= <-]. apply decimal_to_float_nonneg.
  - destruct (ip ++ fp) eqn:E; [discriminate|].
    destruct (digits_value 0 _); [|discriminate].
    intros [= <-]. apply decimal_to_float_nonneg.
Qed.

(** A number that is not nan equals itself. *)
Lemma nonneg_eqb_refl (x : float) : nonneg x = true -> (x =? x)%float = true.
Proof.
  rewrite nonneg_spec, eqb_spec. unfold SFeqb.
  destruct (Prim2SF x) as [s|[]| |[] m e]; simpl; try easy.
  intros _. rewrite Z.compare_refl.
  change (PosDef.Pos.compare_cont Eq m m) with (Pos.compare m m).
  now rewrite Pos.compare_refl.
Qed.
(** * ASCII price texts read the same under every character table *)

Section Ascii.
Context `{U : Unicode}.

Lemma price_char_cases (c : char) :
  price_char c = true -> 48 <= c <= 57 \/ c = period \/ c = comma.
Proof.
  unfold price_char.
  rewrite !orb_true_iff, andb_true_iff, !N.leb_le, !N.eqb_eq. tauto.
Qed.

Lemma isdigit_price_char (c : char) :
  price_char c = true -> isdigit c = latin1_isdigit c.
Proof.
  intros Hc. destruct (price_char_cases c Hc) as [Hd|[-> | ->]].
  - destruct (decimal_isdigit c _ (ascii_digit c Hd)) as [-> _].
    symmetry. unfold latin1_isdigit.
    rewrite !orb_true_iff, andb_true_iff, !N.leb_le. tauto.
  - apply period_not_digit.
  - apply comma_not_digit.
Qed.

Lemma decimal_price_char (c : char) :
  price_char c = true -> decimal c = latin1_decimal c.
Proof.
  intros Hc. destruct (price_char_cases c Hc) as [Hd|Hc'].
  - rewrite (ascii_digit c Hd). symmetry. apply (ascii_digit (Unicode := latin1) c Hd).
  - assert (Hn : isdigit c = false)
      by (destruct Hc' as [-> | ->]; [apply period_not_digit | apply comma_not_digit]).
    destruct (decimal c) as [d|] eqn:E.
    + apply decimal_isdigit in E. destruct E as [E _]. congruence.
    + now destruct Hc' as [-> | ->].
Qed.

Lemma kept_price_char (c : char) : price_char c = true -> kept c = true.
Proof.
  intros Hc. unfold kept. rewrite (isdigit_price_char c Hc).
  revert Hc. unfold price_char, latin1_isdigit.
  rewrite !orb_true_iff. tauto.
Qed.

Lemma isspace_price_char (c : char) : price_char c = true -> isspace c = false.
Proof.
  intros Hc. destruct (isspace c) eqn:Hs; [|reflexivity].
  apply space_not_kept in Hs. rewrite (kept_price_char c Hc) in Hs. discriminate.
Qed.

Lemma dropwhile_none {A} (p : A -> bool) (l : list A) :
  forallb (fun c => negb (p c)) l = true -> dropwhile p l = l.
Proof.
  destruct l as [|c l]; simpl; [reflexivity|].
  rewrite andb_true_iff. intros [Hc _]. apply negb_true_iff in Hc. now rewrite Hc.
Qed.

Lemma forallb_impl {A} (p q : A -> bool) (l : list A) :
  (forall c, p c = true -> q c = true) -> forallb p l = true -> forallb q l = true.
Proof.
  intros Hpq. rewrite !forallb_forall. auto.
Qed.

Lemma strip_price_text (s : str) : forallb price_char s = true -> strip s = s.
Proof.
  intros Hs. unfold strip.
  assert (Hn : forallb (fun c => negb (isspace c)) s = true).
  { revert Hs. apply forallb_impl. intros c Hc.
    now rewrite (isspace_price_char c Hc). }
  rewrite (dropwhile_none _ s Hn), dropwhile_none, rev_involutive; [reflexivity|].
  now rewrite forallb_rev.
Qed.

Lemma filter_all {A} (p : A -> bool) (l : list A) :
  forallb p l = true -> filter p l = l.
Proof.
  induction l as [|c l IH]; simpl; [reflexivity|].
  rewrite andb_true_iff. intros [-> Hl]. now rewrite IH.
Qed.

Lemma filter_kept_price_text (s : str) :
  forallb price_char s = true -> filter kept s = s.
Proof.
  intros Hs. apply filter_all. revert Hs. apply forallb_impl, kept_price_char.
Qed.

Lemma digits_value_price_text (s : str) (acc : N) :
  forallb price_char s = true ->
  digits_value acc s = digits_value (U := latin1) acc s.
Proof.
  revert acc. induction s as [|c s IH]; intros acc; simpl; [reflexivity|].
  rewrite andb_true_iff. intros [Hc Hs].
  rewrite (decimal_price_char c Hc).
  destruct (latin1_decimal c); [apply IH, Hs | reflexivity].
Qed.

Lemma split_forallb (p : char -> bool) (x : char) (s : str) :
  forallb p s = true -> forallb (forallb p) (split x s) = true.
Proof.
  induction s as [|c s IH]; simpl; [reflexivity|].
  rewrite andb_true_iff. intros [Hc Hs]. specialize (IH Hs).
  destruct (c =? x); simpl; [exact IH|].
  destruct (split x s) as [|q qs]; simpl in *; [now rewrite Hc|].
  now rewrite Hc.
Qed.

End Ascii.

Lemma clean_price_text_ascii `{U : Unicode} (s : str) :
  forallb price_char s = true ->
  clean_price_text s = clean_price_text (U := latin1) s.
Proof.
  intros Hs. unfold clean_price_text.
  rewrite (strip_price_text s Hs), (strip_price_text (U := latin1) s Hs).
  now rewrite (filter_kept_price_text s Hs), (filter_kept_price_text (U := latin1) s Hs).
Qed.

Lemma float_of_str_ascii `{U : Unicode} (s : str) :
  forallb price_char s = true ->
  float_of_str s = float_of_str (U := latin1) s.
Proof.
  intros Hs. unfold float_of_str.
  pose proof (split_forallb price_char period s Hs) as Hp.
  destruct (split period s) as [|ip [|fp [|]]]; try reflexivity; simpl in Hp.
  - rewrite andb_true_r in Hp. destruct ip as [|c l]; [reflexivity|].
    now rewrite (digits_value_price_text (U := U) (c :: l) 0 Hp).
  - rewrite andb_true_r in Hp. apply andb_true_iff in Hp as [Hi Hf].
    assert (Hif : forallb price_char (ip ++ fp) = true)
      by now rewrite forallb_app, Hi, Hf.
    destruct (ip ++ fp) as [|c l]; [reflexivity|].
    now rewrite (digits_value_price_text (U := U) (c :: l) 0 Hif).
Qed.

(** C1. The clean-up of the price text keeps the digits, commas and periods,
    turns every comma into a period, and with more than one period left
    joins the parts before the last period and keeps that period only. The
    decimal-comma text "38,99" parses to what "38.99" parses to, 38.99, and
    "1.234,56" is cleaned up to "1234.56" and parses to 1234.56. *)
Theorem C1_clean_price_text `{U : Unicode} :
  (forall raw, clean_price_text raw = normalized_as_specified raw)
  /\ float_of_str (clean_price_text (py "38,99")) = float_of_str (py "38.99")
  /\ float_of_str (py "38.99") = Ok 38.99%float
  /\ clean_price_text (py "1.234,56") = py "1234.56"
  /\ float_of_str (clean_price_text (py "1.234,56")) = Ok 1234.56%float.
Proof.
  split; [apply clean_price_text_as_specified|].
  rewrite !(clean_price_text_ascii (U := U)) by reflexivity.
  rewrite !(float_of_str_ascii (U := U)) by reflexivity.
  repeat split; vm_compute; reflexivity.
Qed.

(** C3. The correction after the parse divides a price above 1000 by 100 and
    leaves every price up to 1000, 1000 included, as it is. *)
Theorem C3_convert_if_too_high (x : float) :
  ((1000 <? x)%float = true -> convert_if_too_high x = (x / 100)%float)
  /\ ((x <=? 1000)%float = true -> convert_if_too_high x = x)
  /\ convert_if_too_high 1000 = 1000%float
  /\ convert_if_too_high 3899 = 38.99%float.
Proof.
  unfold convert_if_too_high. repeat split.
  - now intros ->.
  - intros Hx. now rewrite (leb_not_gt x 1000 Hx).
Qed.

Lemma C3_convert_if_too_high_witness :
  convert_if_too_high 1234.56 = (1234.56 / 100)%float
  /\ convert_if_too_high 999.99 = 999.99%float.
Proof.
  split.
  - apply (proj1 (C3_convert_if_too_high 1234.56)). reflexivity.
  - apply (proj1 (proj2 (C3_convert_if_too_high 999.99))). reflexivity.
Defined.
(** * Running the methods *)

Arguments get_price : simpl never.
Arguments save_products : simpl never.
Arguments find_name : simpl never.
Arguments find_price : simpl never.
Arguments float_of_str : simpl never.
Arguments clean_price_text : simpl never.
Arguments strip : simpl never.
Arguments convert_if_too_high : simpl never.
Arguments startswith : simpl never.
Arguments py : simpl never.
Arguments telegram : simpl never.

Ltac run :=
  unfold bind, ret, raise, try_except, lift, emit, next_tick, get_self,
    set_self, set_file, truncate_file, get_products, set_products,
    set_remove_urls, subscript, reply_text; simpl.

Lemma run_eta (r : Run) :
  {| self := self r; file := file r; tick := tick r; trace := trace r |} = r.
Proof. now destruct r. Qed.

Section Runs.
Context `{U : Unicode}.
Variable w : World.

(** A call of the Bot API returns and is recorded, or raises. *)
Lemma telegram_run (e : Event) (r : Run) :
  telegram w e r
  = match telegram_call w (tick r) with
    | Ok _ => (Ok tt, told r e)
    | Raise x => (Raise x, untold r)
    end.
Proof.
  unfold telegram, told, untold. run.
  now destruct (telegram_call w (tick r)) as [[]|].
Qed.

Lemma save_products_run (r : Run) : save_products w r = (Ok tt, saved w r).
Proof.
  unfold save_products, write_file, saved. run.
  destruct (json_dump w (tick r)); [reflexivity|].
  now destruct (dump_truncates w (tick r)).
Qed.

(** [get_price] returns normally whatever the world does; it moves the tick
    and the trace only. *)
Lemma get_price_run (url : str) (r : Run) :
  get_price w url r = (Ok (scrape w (session_get w (S (tick r)) url)), fetched r url).
Proof.
  unfold get_price, get_price_body, http_get, fetched, scrape. run.
  assert (Ht : forall a b, (trace r ++ [a]) ++ [b] = trace r ++ [a; b])
    by (intros; now rewrite <- app_assoc).
  destruct (session_get w (tick r) homepage); simpl;
    (destruct (session_get w (S (tick r)) url) as [response|e2]; simpl;
       [|now rewrite Ht];
     destruct (raise_for_status response); simpl; [|now rewrite Ht];
     destruct (find_name name_selectors _); simpl; [|now rewrite Ht];
     destruct (find_price price_selectors _); simpl; [|now rewrite Ht];
     destruct (float_of_str _); simpl; now rewrite Ht).
Qed.

End Runs.

(** C4. Whatever the network and the page do, [get_price] returns instead of
    raising, and it returns the same failure value when the request fails,
    when the status is refused, when no name selector matches, when no price
    element holds a digit and when the price text does not parse. *)
Theorem C4_get_price_never_raises `{U : Unicode} (w : World) (url : str) (r : Run) :
  (exists result, get_price w url r = (Ok result, fetched r url))
  /\ (forall e, session_get w (S (tick r)) url = Raise e ->
        fst (get_price w url r) = Ok None)
  /\ (forall response,
        session_get w (S (tick r)) url = Ok response ->
        let soup := BeautifulSoup w (response_text response) in
        (forall e, raise_for_status response = Raise e ->
           fst (get_price w url r) = Ok None)
        /\ (find_name name_selectors soup = None ->
              fst (get_price w url r) = Ok None)
        /\ (find_price price_selectors soup = None ->
              fst (get_price w url r) = Ok None)
        /\ (forall price_element e,
              find_price price_selectors soup = Some price_element ->
              float_of_str (clean_price_text (text price_element)) = Raise e ->
              fst (get_price w url r) = Ok None)).
Proof.
  rewrite get_price_run. simpl. split; [eauto|]. split.
  - now intros e ->.
  - intros response ->. simpl. repeat split.
    + now intros e ->.
    + destruct (raise_for_status response); [|reflexivity]. now intros ->.
    + destruct (raise_for_status response); [|reflexivity]. intros ->.
      now destruct (find_name name_selectors _).
    + intros price_element e -> ->.
      destruct (raise_for_status response); [|reflexivity].
      now destruct (find_name name_selectors _).
Qed.

Lemma C4_get_price_never_raises_witness :
  fst (get_price offline url_a fresh) = Ok None.
Proof.
  apply (proj1 (proj2 (C4_get_price_never_raises offline url_a fresh)) RequestException).
  reflexivity.
Defined.

Lemma add_product_foreign `{U : Unicode} (w : World) (chat_id : Z)
  (url : str) (more : list str) (r : Run) :
  startswith url bol_prefix = false ->
  add_product w chat_id (url :: more) r
    = (Ok tt, said r (ReplyText chat_id invalid_url_message)).
Proof. intros Hp. unfold add_product. run. now rewrite Hp. Qed.

Lemma add_product_known `{U : Unicode} (w : World) (chat_id : Z)
  (url : str) (more : list str) (r : Run) (mine : dict str Product) :
  startswith url bol_prefix = true ->
  dict_get chat_id (products (self r)) = Some mine ->
  dict_in url mine = true ->
  add_product w chat_id (url :: more) r
    = (Ok tt, said r (ReplyText chat_id already_monitored_message)).
Proof.
  intros Hp Hc Hu. unfold add_product. run.
  rewrite Hp. simpl. unfold dict_in at 1. rewrite Hc. simpl.
  rewrite Hc. simpl. now rewrite Hu.
Qed.


(** * Dicts *)

Section DictFacts.
Context {K V : Type} `{Key K}.
Implicit Types (k : K) (v : V) (d : dict K V).

Lemma keyb_refl k : keyb k k = true.
Proof. now apply keyb_eq. Qed.

Lemma keyb_neq k k' : k <> k' -> keyb k k' = false.
Proof.
  intros Hn. destruct (keyb k k') eqn:E; [|reflexivity].
  now apply keyb_eq in E.
Qed.

Lemma dict_get_In k v d : dict_get k d = Some v -> In (k, v) d.
Proof.
  induction d as [|[k' v'] d IH]; simpl; [discriminate|].
  destruct (keyb k k') eqn:E.
  - apply keyb_eq in E. subst k'. intros [= ->]. now left.
  - intros Hg. right. auto.
Qed.

Lemma dict_get_None k d : dict_get k d = None -> ~ In k (keys d).
Proof.
  induction d as [|[k' v'] d IH]; simpl; [tauto|].
  destruct (keyb k k') eqn:E; [discriminate|].
  intros Hg [->|Hin]; [|now apply IH].
  now rewrite keyb_refl in E.
Qed.

Lemma In_keys k v d : In (k, v) d -> In k (keys d).
Proof. intros Hin. now apply (in_map fst) in Hin. Qed.

Lemma In_dict_get k v d : unique_keys d -> In (k, v) d -> dict_get k d = Some v.
Proof.
  unfold unique_keys.
  induction d as [|[k' v'] d IH]; simpl; [tauto|].
  intros Hnd. inversion Hnd as [|? ? Hk' Hd]; subst.
  intros [[= -> ->]|Hin].
  - now rewrite keyb_refl.
  - destruct (keyb k k') eqn:E; [|auto].
    apply keyb_eq in E. subst k'. now apply In_keys in Hin.
Qed.

Lemma dict_get_set_eq k v d : dict_get k (dict_set k v d) = Some v.
Proof.
  induction d as [|[k' v'] d IH]; simpl.
  - now rewrite keyb_refl.
  - destruct (keyb k k') eqn:E; simpl; now rewrite E.
Qed.

Lemma dict_get_set_neq k k' v d :
  k <> k' -> dict_get k' (dict_set k v d) = dict_get k' d.
Proof.
  intros Hn. induction d as [|[k2 v2] d IH]; simpl.
  - now rewrite (keyb_neq k' k) by congruence.
  - destruct (keyb k k2) eqn:E; simpl.
    + apply keyb_eq in E. subst k2. now rewrite (keyb_neq k' k) by congruence.
    + now rewrite IH.
Qed.

Lemma In_dict_set x k v d : In x (dict_set k v d) -> In x d \/ x = (k, v).
Proof.
  induction d as [|[k' v'] d IH]; simpl.
  - intros [<-|[]]. now right.
  - destruct (keyb k k') eqn:E; simpl.
    + apply keyb_eq in E. subst k'. intros [<-|Hin]; auto.
    + intros [<-|Hin]; [auto|]. destruct (IH Hin); auto.
Qed.



Lemma In_dict_del x k d : In x (dict_del k d) -> In x d.
Proof.
  induction d as [|[k' v'] d IH]; simpl; [tauto|].
  destruct (keyb k k'); simpl; [auto|]. intros [<-|Hin]; auto.
Qed.


Lemma dict_get_del_eq k d : unique_keys d -> dict_get k (dict_del k d) = None.
Proof.
  unfold unique_keys. induction d as [|[k' v'] d IH]; simpl; [auto|].
  intros Hnd. inversion Hnd as [|? ? Hk' Hd]; subst.
  destruct (keyb k k') eqn:E; simpl.
  - apply keyb_eq in E. subst k'.
    destruct (dict_get k d) eqn:G; [|reflexivity].
    now apply dict_get_In, In_keys in G.
  - rewrite E. auto.
Qed.


End DictFacts.
(** * Preservation of store properties *)

Section Keeps.
Context {A B : Type} (Q : Products -> Prop).

Lemma keeps_ret (R : A -> Prop) (a : A) : R a -> keeps Q R (ret a).
Proof. intros Ha r Hq. split; [exact Hq|]. simpl. now intros ? [= <-]. Qed.

Lemma keeps_raise (R : A -> Prop) (e : exn) : keeps Q R (raise e).
Proof. intros r Hq. split; [exact Hq|]. simpl. discriminate. Qed.

Lemma keeps_lift (R : A -> Prop) (x : Exc A) :
  (forall a, x = Ok a -> R a) -> keeps Q R (lift x).
Proof. intros Hx r Hq. split; [exact Hq|]. simpl. exact Hx. Qed.

Lemma keeps_weaken (R R' : A -> Prop) (m : M A) :
  (forall a, R a -> R' a) -> keeps Q R m -> keeps Q R' m.
Proof.
  intros Hr Hm r Hq. destruct (Hm r Hq) as [H1 H2]. split; [exact H1|].
  intros a Ha. apply Hr, H2, Ha.
Qed.

Lemma keeps_bind (R : A -> Prop) (R' : B -> Prop) (m : M A) (k : A -> M B) :
  keeps Q R m -> (forall a, R a -> keeps Q R' (k a)) -> keeps Q R' (bind m k).
Proof.
  intros Hm Hk r Hq. unfold bind. destruct (Hm r Hq) as [H1 H2].
  destruct (m r) as [[a|e] r']; simpl in *.
  - apply (Hk a (H2 a eq_refl) r' H1).
  - split; [exact H1 | discriminate].
Qed.

Lemma keeps_try (R R0 : A -> Prop) (m : M A) (h : exn -> M A) :
  keeps Q R m -> (forall e, keeps Q R (h e)) -> keeps Q R (try_except m h).
Proof.
  intros Hm Hh r Hq. unfold try_except. destruct (Hm r Hq) as [H1 H2].
  destruct (m r) as [[a|e] r']; simpl in *.
  - split; [exact H1|]. intros a' [= <-]. now apply H2.
  - apply (Hh e r' H1).
Qed.

End Keeps.

Lemma keeps_for_each {A} (Q : Products -> Prop) (l : list A) (body : A -> M unit) :
  (forall x, In x l -> keeps Q (fun _ => True) (body x)) ->
  keeps Q (fun _ => True) (for_each l body).
Proof.
  induction l as [|x l IH]; intros Hb; simpl.
  - now apply keeps_ret.
  - apply (keeps_bind Q (fun _ => True)).
    + apply Hb. now left.
    + intros _ _. apply IH. intros y Hy. apply Hb. now right.
Qed.

(** A method that never assigns to [products] keeps every property. *)
Lemma keeps_same {A} (Q : Products -> Prop) (R : A -> Prop) (m : M A) :
  (forall r, products (self (snd (m r))) = products (self r)) ->
  (forall r a, fst (m r) = Ok a -> R a) ->
  keeps Q R m.
Proof.
  intros Hs Hr r Hq. rewrite Hs. split; [exact Hq | apply Hr].
Qed.

Section Preservation.
Context `{U : Unicode}.
Variable Q : Products -> Prop.
Variable good : float -> Prop.

Hypothesis good_scrape :
  forall w page price name, scrape w page = Some (price, name) -> good price.

Hypothesis Q_new_chat : forall p c, Q p -> Q (dict_set c [] p).

Hypothesis Q_delete : forall p c mine url,
  Q p -> dict_get c p = Some mine -> Q (dict_set c (dict_del url mine) p).

Hypothesis Q_add : forall p c mine url price name ts,
  Q p -> dict_get c p = Some mine -> startswith url bol_prefix = true ->
  good price ->
  Q (dict_set c (dict_set url {| name := name; last_price := price; last_check := ts |} mine) p).

Hypothesis Q_price : forall p c mine url rec price,
  Q p -> dict_get c p = Some mine -> dict_get url mine = Some rec ->
  good price ->
  Q (dict_set c (dict_set url {| name := name rec; last_price := price;
                                 last_check := last_check rec |} mine) p).

Hypothesis Q_stamp : forall p c mine url rec ts,
  Q p -> dict_get c p = Some mine -> dict_get url mine = Some rec ->
  Q (dict_set c (dict_set url {| name := name rec; last_price := last_price rec;
                                 last_check := ts |} mine) p).

Variable w : World.

Lemma keeps_get_price (url : str) :
  keeps Q (fun res => forall price name, res = Some (price, name) -> good price)
    (get_price w url).
Proof.
  intros r Hq. rewrite get_price_run. simpl. split; [exact Hq|].
  intros a [= <-] price name Hs. eapply good_scrape, Hs.
Qed.

Lemma keeps_save_products : keeps Q (fun _ => True) (save_products w).
Proof. apply keeps_same; [|auto]. intros r. now rewrite save_products_run. Qed.

Lemma keeps_add_product (chat_id : Z) (args : list str) :
  keeps Q (fun _ => True) (add_product w chat_id args).
Proof.
  intros r Hq. split; [|auto]. unfold add_product. run.
  destruct args as [|url more]; simpl; [exact Hq|].
  destruct (startswith url bol_prefix) eqn:Hp; simpl; [|exact Hq].
  unfold dict_in.
  destruct (dict_get chat_id (products (self r))) as [mine|] eqn:Hc; simpl.
  - rewrite Hc. simpl.
    destruct (dict_get url mine) eqn:Hu; simpl; [exact Hq|].
    rewrite get_price_run. simpl.
    destruct (scrape w _) as [[price [|ch nm]]|] eqn:Hs; simpl; try exact Hq.
    rewrite Hc. simpl. rewrite save_products_run. simpl.
    apply Q_add; eauto.
  - rewrite dict_get_set_eq. simpl.
    rewrite get_price_run. simpl.
    destruct (scrape w _) as [[price [|ch nm]]|] eqn:Hs; simpl;
      try (apply Q_new_chat, Hq).
    rewrite dict_get_set_eq. simpl. rewrite save_products_run. simpl.
    apply (Q_add (dict_set chat_id [] (products (self r))) chat_id [] url price
             (ch :: nm)); eauto using dict_get_set_eq.
Qed.

Lemma keeps_button_callback (chat_id : Z) (data : str) :
  keeps Q (fun _ => True) (button_callback w chat_id data).
Proof.
  assert (Ht : forall e r0, Q (products (self r0)) ->
            Q (products (self (snd (telegram w e r0))))).
  { intros e r0 H0. rewrite telegram_run.
    now destruct (telegram_call w (tick r0)). }
  intros r Hq. split; [|auto]. unfold button_callback. run.
  rewrite telegram_run.
  destruct (telegram_call w (tick r)) as [[]|e]; simpl; [|exact Hq].
  destruct (startswith data (py "rm_")); simpl; [|exact Hq].
  destruct (dict_get data (_remove_urls (self r))) as [url|]; simpl;
    [|now apply Ht].
  destruct (dict_get chat_id (products (self r))) as [mine|] eqn:Hc; simpl;
    [|now apply Ht].
  destruct (dict_get url mine) as [record|]; simpl; [|now apply Ht].
  rewrite save_products_run. simpl. apply Ht. simpl. now apply Q_delete.
Qed.

Lemma keeps_update_record (chat_id : Z) (url : str) (f : Product -> Product) :
  (forall p mine rec, Q p -> dict_get chat_id p = Some mine ->
     dict_get url mine = Some rec ->
     Q (dict_set chat_id (dict_set url (f rec) mine) p)) ->
  keeps Q (fun _ => True) (update_record chat_id url f).
Proof.
  intros Hf r Hq. split; [|auto]. unfold update_record. run.
  destruct (dict_get chat_id (products (self r))) as [mine|] eqn:Hc; simpl;
    [|exact Hq].
  destruct (dict_get url mine) as [record|] eqn:Hu; simpl; [|exact Hq].
  now apply Hf.
Qed.

Lemma keeps_bot_send_message (chat_id : Z) (message : str) :
  keeps Q (fun _ => True) (bot_send_message w chat_id message).
Proof.
  apply keeps_same; [|auto]. intros r. unfold bot_send_message. run.
  now destruct (send_message w (tick r) chat_id message).
Qed.

Lemma keeps_next_tick : keeps Q (fun _ => True) next_tick.
Proof. now apply keeps_same. Qed.

Lemma keeps_check_record (chat_id : Z) (item : str * Product) :
  keeps Q (fun _ => True) (check_record w chat_id item).
Proof.
  destruct item as [url data]. unfold check_record.
  eapply keeps_bind; [apply keeps_get_price|].
  intros [[current_price name']|] Hg; [|now apply keeps_ret].
  specialize (Hg _ _ eq_refl).
  destruct (negb _); [|now apply keeps_ret].
  eapply keeps_bind; [apply (keeps_lift Q (fun _ => True)); auto|]. intros q _.
  eapply keeps_bind.
  { apply (keeps_try Q (fun _ => True)); [exact (fun _ => True)| |].
    - apply keeps_bot_send_message.
    - intros e. now apply keeps_ret. }
  intros _ _.
  eapply keeps_bind.
  { apply keeps_update_record. intros. now apply Q_price. }
  intros _ _.
  eapply keeps_bind; [apply keeps_next_tick|]. intros t _.
  eapply keeps_bind.
  { apply keeps_update_record. intros. now apply Q_stamp. }
  intros _ _. apply keeps_save_products.
Qed.

Lemma keeps_get_products :
  keeps Q (fun _ => True) get_products.
Proof. now apply keeps_same. Qed.

Lemma keeps_subscript {K V} `{Key K} (d : dict K V) (k : K) :
  keeps Q (fun _ => True) (subscript d k).
Proof.
  apply keeps_same; [|auto]. intros r. unfold subscript.
  now destruct (dict_get k d).
Qed.

Lemma keeps_check_prices_once : keeps Q (fun _ => True) (check_prices_once w).
Proof.
  unfold check_prices_once, sweep.
  apply (keeps_try Q (fun _ => True)); [exact (fun _ => True)| |].
  - eapply keeps_bind; [apply keeps_get_products|]. intros p _.
    apply keeps_for_each. intros chat_id _. unfold check_chat.
    eapply keeps_bind; [apply keeps_get_products|]. intros p' _.
    eapply keeps_bind; [apply keeps_subscript|]. intros mine _.
    apply keeps_for_each. intros item _. apply keeps_check_record.
  - intros e. now apply keeps_ret.
Qed.

Lemma keeps_handle (u : Update) : keeps Q (fun _ => True) (handle w u).
Proof.
  destruct u as [c|c|c args|c|c|c data|]; simpl.
  - now apply keeps_same.
  - now apply keeps_same.
  - apply keeps_add_product.
  - apply keeps_same; [|auto]. intros r. unfold list_products. run.
    destruct (has_no_products c _); simpl; [reflexivity|].
    now destruct (dict_get c _).
  - apply keeps_same; [|auto]. intros r. unfold remove_product. run.
    destruct (has_no_products c _); simpl.
    + rewrite telegram_run. now destruct (telegram_call w (tick r)).
    + destruct (dict_get c _); simpl; [|reflexivity].
      destruct (remove_menu 0 _ [] []). rewrite telegram_run. simpl.
      now destruct (telegram_call w (tick r)).
  - apply keeps_button_callback.
  - apply keeps_check_prices_once.
Qed.

End Preservation.
(** * The invariants of the store *)

Lemma reachable_keeps `{U : Unicode} (Q : Products -> Prop)
  (step : forall w u, keeps Q (fun _ : unit => True) (handle w u)) (r0 r : Run) :
  Q (products (self r0)) -> reachable r0 r -> Q (products (self r)).
Proof.
  intros H0 Hr. induction Hr as [|w u r Hr IH]; [exact H0|].
  apply (step w u r IH).
Qed.

(** ** Unique keys *)




Lemma records_of_cons (c c' : Z) (url : str) (mine : dict str Product) (p : Products) :
  records_of c url ((c', mine) :: p)
  = (if keyb c c'
     then map snd (filter (fun ur => keyb url (fst ur)) mine)
     else []) ++ records_of c url p.
Proof. reflexivity. Qed.

Lemma records_of_absent (c : Z) (url : str) (p : Products) :
  ~ In c (keys p) -> records_of c url p = [].
Proof.
  induction p as [|[c' mine] p IH]; [reflexivity|].
  intros Hn. rewrite records_of_cons, keyb_neq.
  - apply IH. simpl in Hn. tauto.
  - intros ->. apply Hn. now left.
Qed.


(** ** Properties of every record *)

Section AllRecords.
Variable P : str -> Product -> Prop.

Lemma all_records_set (p : Products) (c : Z) (mine : dict str Product) :
  all_records P p -> (forall url rec, In (url, rec) mine -> P url rec) ->
  all_records P (dict_set c mine p).
Proof.
  intros Hp Hm c' mine' url rec H' Hin.
  apply In_dict_set in H' as [H'|[= _ ->]]; eauto.
Qed.

Lemma all_records_get (p : Products) (c : Z) (mine : dict str Product) url rec :
  all_records P p -> dict_get c p = Some mine -> In (url, rec) mine -> P url rec.
Proof. intros Hp Hg. apply (Hp c), dict_get_In, Hg. Qed.

Variable good : float -> Prop.

Hypothesis P_new : forall url price nm ts,
  startswith url bol_prefix = true -> good price ->
  P url {| name := nm; last_price := price; last_check := ts |}.

Hypothesis P_price : forall url rec price,
  P url rec -> good price ->
  P url {| name := name rec; last_price := price; last_check := last_check rec |}.

Hypothesis P_stamp : forall url rec ts,
  P url rec ->
  P url {| name := name rec; last_price := last_price rec; last_check := ts |}.

Lemma keeps_all_records `{U : Unicode}
  (good_scrape : forall w page price nm, scrape w page = Some (price, nm) -> good price)
  (w : World) (u : Update) :
  keeps (all_records P) (fun _ => True) (handle w u).
Proof.
  apply (keeps_handle (all_records P) good); auto.
  - intros p c Hp. apply all_records_set; [exact Hp | intros ? ? []].
  - intros p c mine url Hp Hg. apply all_records_set; [exact Hp|].
    intros url' rec' H'. apply In_dict_del in H'.
    eapply all_records_get; eauto.
  - intros p c mine url price nm ts Hp Hg Hu Hgood.
    apply all_records_set; [exact Hp|].
    intros url' rec' H'. apply In_dict_set in H' as [H'|[= -> ->]].
    + eapply all_records_get; eauto.
    + now apply P_new.
  - intros p c mine url rec price Hp Hg Hr Hgood.
    apply all_records_set; [exact Hp|].
    intros url' rec' H'. apply In_dict_set in H' as [H'|[= -> ->]].
    + eapply all_records_get; eauto.
    + apply P_price; [|exact Hgood].
      eapply all_records_get; eauto using dict_get_In.
  - intros p c mine url rec ts Hp Hg Hr.
    apply all_records_set; [exact Hp|].
    intros url' rec' H'. apply In_dict_set in H' as [H'|[= -> ->]].
    + eapply all_records_get; eauto.
    + apply P_stamp. eapply all_records_get; eauto using dict_get_In.
Qed.

End AllRecords.

Lemma scrape_nonneg `{U : Unicode} (w : World) (page : Exc Response) price nm :
  scrape w page = Some (price, nm) -> nonneg price = true.
Proof.
  unfold scrape. destruct page as [response|]; [|discriminate].
  destruct (raise_for_status response); [|discriminate]. simpl.
  destruct (find_name _ _); [|discriminate].
  destruct (find_price _ _); [|discriminate].
  destruct (float_of_str _) as [x|] eqn:E; [|discriminate].
  intros [= <- _]. eapply convert_if_too_high_nonneg, float_of_str_nonneg, E.
Qed.

Lemma keeps_bol_url `{U : Unicode} (w : World) (u : Update) :
  keeps (all_records bol_url) (fun _ => True) (handle w u).
Proof. apply (keeps_all_records bol_url (fun _ => True)); auto. Qed.

Lemma keeps_price_nonneg `{U : Unicode} (w : World) (u : Update) :
  keeps (all_records price_nonneg) (fun _ => True) (handle w u).
Proof.
  apply (keeps_all_records price_nonneg (fun x => nonneg x = true)); auto.
  intros ? ? ? ?. apply scrape_nonneg.
Qed.
(** * The claims on the store *)



Lemma reachable_run_added : reachable fresh run_added.
Proof.
  unfold run_added, run_of.
  change (add_product (shop (py "Kettle") (fun _ => py "€ 38,99") true) 7 [url_a])
    with (handle (shop (py "Kettle") (fun _ => py "€ 38,99") true) (CmdAdd 7 [url_a])).
  apply reach_step, reach_refl.
Qed.


(** ** The alphabet of a cleaned-up price text *)

Section Alphabet.
Context `{U : Unicode}.

Lemma count_app (x : char) (a b : str) :
  count x (a ++ b) = (count x a + count x b)%nat.
Proof. unfold count. now rewrite filter_app, length_app. Qed.

Lemma count_filter_is_not (x : char) (s : str) :
  count x (filter (is_not x) s) = 0%nat.
Proof.
  apply count_none. apply forallb_forall. intros c Hc.
  now apply filter_In in Hc.
Qed.

Lemma kept_replaced (raw : str) :
  Forall digit_or_period (replace comma period (filter kept raw)).
Proof.
  apply Forall_forall. intros c Hc. unfold replace in Hc.
  apply in_map_iff in Hc as [c0 [<- Hc0]].
  apply filter_In in Hc0 as [_ Hk]. unfold kept in Hk.
  destruct (c0 =? comma) eqn:Ec; [now right|].
  rewrite orb_false_r in Hk. apply orb_true_iff in Hk as [Hd|Hp].
  - now left.
  - right. now apply N.eqb_eq.
Qed.

(** The clean-up leaves digits and at most one period. *)
Lemma clean_price_text_alphabet (raw : str) :
  Forall digit_or_period (clean_price_text raw)
  /\ (count period (clean_price_text raw) <= 1)%nat.
Proof.
  rewrite clean_price_text_as_specified. unfold normalized_as_specified.
  pose proof (kept_replaced raw) as Ht. rewrite replace_comma in Ht.
  set (t := map (fun c => if c =? comma then period else c) (filter kept raw)) in *.
  destruct (1 <? count period t)%nat eqn:Hc.
  - apply Nat.ltb_lt in Hc.
    destruct (last_occurrence period t) as [Hs Ha]; [lia|].
    rewrite Hs in Ht. apply Forall_app in Ht as [Hb Hxa].
    inversion Hxa as [|? ? Hx Haf]; subst. split.
    + apply Forall_app. split.
      * apply Forall_forall. intros c Hin. apply filter_In in Hin as [Hin _].
        revert c Hin. now apply Forall_forall.
      * now constructor.
    + rewrite count_app, count_filter_is_not. simpl.
      change (period :: after_last period t)
        with ([period] ++ after_last period t).
      rewrite count_app, (count_none period _ Ha). reflexivity.
  - apply Nat.ltb_ge in Hc. now split.
Qed.

End Alphabet.

(** C9. The clean-up leaves digits and at most one period; what such a text
    parses to is at least zero, and still is after the division by 100; the
    prices [get_price] returns are therefore at least zero, and since [add]
    and the polling update store nothing else, a store whose prices are at
    least zero keeps that in every run. *)
Theorem C9_prices_nonneg `{U : Unicode} :
  (forall raw,
     Forall (fun c => isdigit c = true \/ c = period) (clean_price_text raw)
     /\ (count period (clean_price_text raw) <= 1)%nat)
  /\ (forall raw x,
        float_of_str (clean_price_text raw) = Ok x ->
        nonneg x = true /\ nonneg (convert_if_too_high x) = true)
  /\ (forall w url r price nm,
        fst (get_price w url r) = Ok (Some (price, nm)) -> nonneg price = true)
  /\ (forall r0 r,
        all_records price_nonneg (products (self r0)) ->
        reachable r0 r ->
        all_records price_nonneg (products (self r))).
Proof.
  split; [|split; [|split]].
  - apply clean_price_text_alphabet.
  - intros raw x Hx. apply float_of_str_nonneg in Hx.
    split; [exact Hx | now apply convert_if_too_high_nonneg].
  - intros w url r price nm. rewrite get_price_run. simpl.
    intros [= Hs]. eapply scrape_nonneg, Hs.
  - intros r0 r. apply (reachable_keeps (all_records price_nonneg) keeps_price_nonneg).
Qed.

Lemma C9_prices_nonneg_witness :
  all_records price_nonneg (products (self run_added))
  /\ nonneg 38.99 = true.
Proof.
  split.
  - refine (proj2 (proj2 (proj2 C9_prices_nonneg)) fresh run_added _
              reachable_run_added).
    intros ? ? ? ? [].
  - refine (proj1 (proj1 (proj2 C9_prices_nonneg) (py "38,99") 38.99%float _)).
    vm_compute. reflexivity.
Defined.
(** * One record of a sweep *)

Section CheckRecord.
Context `{U : Unicode}.
Variable w : World.

Lemma dict_set_set {K V} `{Key K} (k : K) (v1 v2 : V) (d : dict K V) :
  dict_set k v2 (dict_set k v1 d) = dict_set k v2 d.
Proof.
  induction d as [|[k' v'] d IH]; simpl.
  - now rewrite keyb_refl.
  - destruct (keyb k k') eqn:E; simpl; rewrite E; [reflexivity|]. now rewrite IH.
Qed.

(** The extractor failed: the record is skipped. *)
Lemma check_record_failed (chat_id : Z) (url : str) (data : Product) (r : Run) :
  scrape w (session_get w (S (tick r)) url) = None ->
  check_record w chat_id (url, data) r = (Ok tt, fetched r url).
Proof.
  intros Hs. unfold check_record. run. now rewrite get_price_run, Hs.
Qed.

(** The price is the stored one: nothing is sent, nothing is written. *)
Lemma check_record_same (chat_id : Z) (url : str) (data : Product) (r : Run)
  (current_price : float) (nm : str) :
  scrape w (session_get w (S (tick r)) url) = Some (current_price, nm) ->
  (current_price =? last_price data)%float = true ->
  check_record w chat_id (url, data) r = (Ok tt, fetched r url).
Proof.
  intros Hs He. unfold check_record. run. now rewrite get_price_run, Hs, He.
Qed.

(** The price changed from zero: the percentage raises. *)
Lemma check_record_zero (chat_id : Z) (url : str) (data : Product) (r : Run)
  (current_price : float) (nm : str) :
  scrape w (session_get w (S (tick r)) url) = Some (current_price, nm) ->
  (current_price =? last_price data)%float = false ->
  (last_price data =? 0)%float = true ->
  check_record w chat_id (url, data) r = (Raise ZeroDivisionError, fetched r url).
Proof.
  intros Hs He Hz. unfold check_record, truediv. run.
  now rewrite get_price_run, Hs, He, Hz.
Qed.

(** The price changed from a price that is not zero. *)
Lemma check_record_changed (chat_id : Z) (url : str) (data : Product) (r : Run)
  (current_price : float) (nm : str) (mine : dict str Product) (rec : Product) :
  scrape w (session_get w (S (tick r)) url) = Some (current_price, nm) ->
  (current_price =? last_price data)%float = false ->
  (last_price data =? 0)%float = false ->
  dict_get chat_id (products (self r)) = Some mine ->
  dict_get url mine = Some rec ->
  check_record w chat_id (url, data) r
  = (Ok tt, repriced w r chat_id url data current_price mine rec).
Proof.
  intros Hs He Hz Hc Hu.
  unfold check_record, truediv, bot_send_message, update_record, repriced, alert_of.
  run. rewrite get_price_run, Hs, He, Hz. simpl.
  destruct (send_message w (S (S (tick r))) chat_id _) eqn:Hsend; simpl;
    rewrite Hc; simpl; rewrite Hu; simpl;
    repeat (rewrite dict_get_set_eq; simpl); rewrite save_products_run;
    unfold saved; simpl; rewrite !dict_set_set, <- !app_assoc; reflexivity.
Qed.

End CheckRecord.
(** * The claims on the polling sweep *)

Arguments check_record : simpl never.
Arguments check_chat : simpl never.

Lemma events_since_app (r : Run) (r' : Run) (evs : list Event) :
  trace r' = trace r ++ evs -> events_since r r' = evs.
Proof.
  intros Ht. unfold events_since.
  now rewrite Ht, skipn_app, skipn_all, Nat.sub_diag.
Qed.


Lemma get_price_found `{U : Unicode} (w : World) (url : str) (r : Run) x :
  fst (get_price w url r) = Ok (Some x) ->
  scrape w (session_get w (S (tick r)) url) = Some x.
Proof. rewrite get_price_run. simpl. now intros [= ->]. Qed.

(** C10. When the alert for a changed price cannot be sent, the error is
    swallowed: the check of the record still returns, the stored record has
    the new price and the time of the check, and the store is dumped, all as
    if the alert had been delivered. Later checks that find the same price
    send nothing, so that alert is never sent again. *)
Theorem C10_update_survives_failed_send `{U : Unicode} (w : World) (chat_id : Z)
  (url : str) (data : Product) (mine : dict str Product) (r : Run)
  (current_price : float) (nm message : str) :
  fst (get_price w url r) = Ok (Some (current_price, nm)) ->
  dict_get chat_id (products (self r)) = Some mine ->
  dict_get url mine = Some data ->
  In (SendMessage chat_id message false)
     (events_since r (snd (check_record w chat_id (url, data) r))) ->
  let r' := snd (check_record w chat_id (url, data) r) in
  let stored := {| name := name data; last_price := current_price;
                   last_check := datetime_now w (3 + tick r) |} in
  fst (check_record w chat_id (url, data) r) = Ok tt
  /\ products (self r')
     = dict_set chat_id (dict_set url stored mine) (products (self r))
  /\ (forall mine', dict_get chat_id (products (self r')) = Some mine' ->
        dict_get url mine' = Some stored)
  /\ (json_dump w (4 + tick r) = Ok tt -> file r' = Some (products (self r')))
  /\ self r' = self (snd (check_record (delivering w) chat_id (url, data) r))
  /\ file r' = file (snd (check_record (delivering w) chat_id (url, data) r))
  /\ (forall w2 r2 nm2,
        fst (get_price w2 url r2) = Ok (Some (current_price, nm2)) ->
        check_record w2 chat_id (url, stored) r2 = (Ok tt, fetched r2 url)).
Proof.
  intros Hg Hc Hu Hsent r' stored.
  pose proof (get_price_found w url r _ Hg) as Hs.
  assert (Hd : scrape (delivering w) (session_get (delivering w) (S (tick r)) url)
               = Some (current_price, nm)) by exact Hs.
  destruct (current_price =? last_price data)%float eqn:He.
  { exfalso. unfold r' in *.
    rewrite (check_record_same w chat_id url data r _ _ Hs He) in Hsent.
    rewrite (events_since_app r _ [SessionGet homepage; SessionGet url]) in Hsent
      by reflexivity.
    destruct Hsent as [Hx|[Hx|[]]]; discriminate. }
  destruct (last_price data =? 0)%float eqn:Hz.
  { exfalso. unfold r' in *.
    rewrite (check_record_zero w chat_id url data r _ _ Hs He Hz) in Hsent.
    rewrite (events_since_app r _ [SessionGet homepage; SessionGet url]) in Hsent
      by reflexivity.
    destruct Hsent as [Hx|[Hx|[]]]; discriminate. }
  unfold r'.
  rewrite (check_record_changed w chat_id url data r _ _ mine data Hs He Hz Hc Hu).
  rewrite (check_record_changed (delivering w) chat_id url data r _ _ mine data
             Hd He Hz Hc Hu).
  simpl. repeat split.
  - intros mine'. rewrite dict_get_set_eq. intros [= <-]. apply dict_get_set_eq.
  - now intros ->.
  - intros w2 r2 nm2 Hg2. apply get_price_found in Hg2.
    apply (check_record_same w2 chat_id url stored r2 current_price nm2 Hg2).
    simpl. eapply nonneg_eqb_refl, scrape_nonneg, Hs.
Qed.

Lemma C10_update_survives_failed_send_witness :
  fst (check_record (shop (py "Kettle") (fun _ => py "35,-") false) 7
         (url_a, item (py "Kettle") 38.99 2) run_added) = Ok tt
  /\ products (self (snd (check_record (shop (py "Kettle") (fun _ => py "35,-") false) 7
                            (url_a, item (py "Kettle") 38.99 2) run_added)))
     = [(7%Z, [(url_a, item (py "Kettle") 35 7)])].
Proof.
  pose proof (C10_update_survives_failed_send
                (shop (py "Kettle") (fun _ => py "35,-") false) 7 url_a
                (item (py "Kettle") 38.99 2)
                [(url_a, item (py "Kettle") 38.99 2)] run_added 35%float
                (py "Kettle")
                (alert_of url_a (item (py "Kettle") 38.99 2) 35%float)) as H.
  cbv zeta in H. destruct H as [H1 [H2 _]].
  - vm_compute. reflexivity.
  - vm_compute. reflexivity.
  - vm_compute. reflexivity.
  - vm_compute. do 2 right. left. reflexivity.
  - split; [exact H1|]. rewrite H2. vm_compute. reflexivity.
Defined.

(** C2, at a record whose stored price is zero. Chat 7 holds a gift card added
    while its page showed "0,00" and a toaster at 12.50. The page now shows
    "5,00": the fetched price 5.0 differs from the stored 0.0, yet the turn of
    the loop sends no message and leaves the store as it was, and the toaster
    after it is not even requested: the percentage divides by the stored
    price, the [ZeroDivisionError] leaves the sweep, and the handler around
    the sweep swallows it. *)
Theorem C2_change_from_zero_is_lost :
  let w := shop (py "Gift card") (fun _ => py "5,00") true in
  products (self run_free_two)
    = [(7%Z, [(url_a, item (py "Gift card") 0 2); (url_b, item (py "Toaster") 12.5 6)])]
  /\ fst (get_price w url_a run_free_two) = Ok (Some (5%float, py "Gift card"))
  /\ (5 =? 0)%float = false
  /\ check_record w 7 (url_a, item (py "Gift card") 0 2) run_free_two
     = (Raise ZeroDivisionError, fetched run_free_two url_a)
  /\ check_prices_once w run_free_two = (Ok tt, fetched run_free_two url_a).
Proof.
  cbv zeta. repeat match goal with |- _ /\ _ => split end; vm_compute; reflexivity.
Qed.
(** * More on the handlers *)

Section DictMore.
Context {K V : Type} `{Key K}.
Implicit Types (k : K) (v : V) (d : dict K V).

Lemma dict_set_absent k v d : dict_get k d = None -> dict_set k v d = d ++ [(k, v)].
Proof.
  induction d as [|[k' v'] d IH]; simpl; [reflexivity|].
  destruct (keyb k k'); [discriminate|]. intros Hn. now rewrite IH.
Qed.

Lemma dict_get_app_absent k d d' :
  dict_get k d = None -> dict_get k (d ++ d') = dict_get k d'.
Proof.
  induction d as [|[k' v'] d IH]; simpl; [reflexivity|].
  destruct (keyb k k'); [discriminate | exact IH].
Qed.

Lemma dict_get_app_present k v d d' :
  dict_get k d = Some v -> dict_get k (d ++ d') = Some v.
Proof.
  induction d as [|[k' v'] d IH]; simpl; [discriminate|].
  destruct (keyb k k'); [auto | exact IH].
Qed.

End DictMore.

Section AddProduct.
Context `{U : Unicode}.
Variable w : World.


Lemma add_product_added (chat_id : Z) (url : str) (more : list str) (r : Run)
  (price : float) (c0 : char) (title : str) :
  startswith url bol_prefix = true ->
  dict_in url (dict_of chat_id (products (self r))) = false ->
  scrape w (session_get w (S (tick r)) url) = Some (price, c0 :: title) ->
  add_product w chat_id (url :: more) r
  = (Ok tt, added w r chat_id url price (c0 :: title)).
Proof.
  intros Hp Hu Hs. unfold add_product, added, dict_of in *. run.
  rewrite Hp. simpl. unfold dict_in at 1.
  assert (Habs : forall mine : dict str Product,
            dict_in url mine = false -> dict_get url mine = None).
  { intros mine. unfold dict_in. now destruct (dict_get url mine). }
  destruct (dict_get chat_id (products (self r))) as [mine|] eqn:Hc; simpl.
  - rewrite Hc. simpl. rewrite Hu. simpl.
    rewrite get_price_run. simpl. rewrite Hs. simpl. rewrite Hc. simpl.
    rewrite save_products_run. unfold saved. simpl.
    rewrite (dict_set_absent url _ mine (Habs _ Hu)), <- !app_assoc. reflexivity.
  - rewrite dict_get_set_eq. simpl.
    rewrite get_price_run. simpl. rewrite Hs. simpl. rewrite dict_get_set_eq. simpl.
    rewrite save_products_run. unfold saved. simpl.
    rewrite !dict_set_set, <- !app_assoc. reflexivity.
Qed.

Lemma add_product_not_added (chat_id : Z) (url : str) (more : list str) (r : Run) :
  startswith url bol_prefix = true ->
  dict_in url (dict_of chat_id (products (self r))) = false ->
  (scrape w (session_get w (S (tick r)) url) = None
   \/ exists price, scrape w (session_get w (S (tick r)) url) = Some (price, [])) ->
  add_product w chat_id (url :: more) r = (Ok tt, not_added r chat_id url).
Proof.
  intros Hp Hu Hs. unfold add_product, not_added, dict_of in *. run.
  rewrite Hp. simpl. unfold dict_in at 1 3.
  destruct (dict_get chat_id (products (self r))) as [mine|] eqn:Hc; simpl.
  - rewrite Hc. simpl. rewrite Hu. simpl. rewrite get_price_run. simpl.
    destruct Hs as [->|[price ->]]; simpl; rewrite <- !app_assoc;
      now destruct (self r).
  - rewrite dict_get_set_eq. simpl. rewrite get_price_run. simpl.
    rewrite (dict_set_absent chat_id _ _ Hc).
    destruct Hs as [->|[price ->]]; simpl; rewrite <- !app_assoc; reflexivity.
Qed.

End AddProduct.
(** * The remove menu and its tokens *)

Lemma str_of_nat_inj (i j : nat) : str_of_nat i = str_of_nat j -> i = j.
Proof.
  unfold str_of_nat, str_of_N. intros E.
  apply Nat2N.inj, DecimalN.Unsigned.to_uint_inj.
  assert (Hs : NilEmpty.string_of_uint (N.to_uint (N.of_nat i))
               = NilEmpty.string_of_uint (N.to_uint (N.of_nat j))).
  { rewrite <- (string_of_list_ascii_of_string (NilEmpty.string_of_uint (N.to_uint (N.of_nat i)))).
    rewrite <- (string_of_list_ascii_of_string (NilEmpty.string_of_uint (N.to_uint (N.of_nat j)))).
    f_equal.
    apply (f_equal (map ascii_of_N)) in E.
    rewrite !map_map in E.
    rewrite !(map_ext _ (fun a => a) ascii_N_embedding), !map_id in E.
    exact E. }
  apply (f_equal NilEmpty.uint_of_string) in Hs.
  rewrite !NilEmpty.usu in Hs. now injection Hs.
Qed.

Lemma token_inj (i j : nat) : token i = token j -> i = j.
Proof. unfold token. intros E. apply app_inv_head in E. now apply str_of_nat_inj. Qed.

Lemma startswith_token (i : nat) : startswith (token i) (py "rm_") = true.
Proof. apply startswith_app. Qed.

Section Menu.
Context `{U : Unicode}.

(** The buttons after the [i]-th leave the other tokens alone. *)
Lemma remove_menu_other (items : list (str * Product)) :
  forall (i : nat) (urls : dict str str) (keyboard : list (str * str)) (k : str),
    (forall j, (j < List.length items)%nat -> k <> token (i + j)) ->
    dict_get k (fst (remove_menu i items urls keyboard)) = dict_get k urls.
Proof.
  induction items as [|[url data] rest IH]; intros i urls keyboard k Hk;
    [reflexivity|].
  simpl. fold (token i). rewrite IH.
  - apply dict_get_set_neq. intros <-. apply (Hk 0%nat); [simpl; lia|].
    now rewrite Nat.add_0_r.
  - intros j Hj E. apply (Hk (S j)); [simpl; lia|]. rewrite E. f_equal. lia.
Qed.

(** The [j]-th button stands for the [j]-th URL. *)
Lemma remove_menu_nth (items : list (str * Product)) :
  forall (i : nat) (urls : dict str str) (keyboard : list (str * str))
         (j : nat) (url : str),
    nth_error (keys items) j = Some url ->
    dict_get (token (i + j)) (fst (remove_menu i items urls keyboard)) = Some url.
Proof.
  induction items as [|[url0 data] rest IH]; intros i urls keyboard j url Hj.
  - now destruct j.
  - simpl. fold (token i). destruct j as [|j]; simpl in Hj.
    + injection Hj as ->. rewrite Nat.add_0_r, remove_menu_other.
      * apply dict_get_set_eq.
      * intros j _ E. apply token_inj in E. lia.
    + replace (i + S j)%nat with (S i + j)%nat by lia. now apply IH.
Qed.

Lemma remove_menu_shape (items : list (str * Product)) :
  forall (i : nat) (urls : dict str str) (keyboard : list (str * str)),
    (forall j, (i <= j)%nat -> dict_get (token j) urls = None) ->
    remove_menu i items urls keyboard
    = (urls ++ menu_tokens i items, keyboard ++ menu_buttons i items).
Proof.
  induction items as [|[url data] rest IH]; intros i urls keyboard Hfree; simpl.
  - now rewrite !app_nil_r.
  - fold (token i). fold (button_label data).
    rewrite (dict_set_absent (token i) url urls) by (apply Hfree; lia).
    rewrite IH.
    + now rewrite <- !app_assoc.
    + intros j Hj. rewrite dict_get_app_absent by (apply Hfree; lia).
      change [(token i, url)] with (dict_set (token i) url []).
      rewrite dict_get_set_neq; [reflexivity|].
      intros E. apply token_inj in E. lia.
Qed.

Lemma remove_menu_0 (items : list (str * Product)) :
  remove_menu 0 items [] [] = (menu_tokens 0 items, menu_buttons 0 items).
Proof. now rewrite remove_menu_shape. Qed.

Lemma menu_buttons_length (items : list (str * Product)) (i : nat) :
  List.length (menu_buttons i items) = List.length items.
Proof.
  revert i. induction items as [|[u d] l IH]; intros i; simpl; [reflexivity|].
  now rewrite IH.
Qed.

Lemma menu_nth (items : list (str * Product)) :
  forall (i k : nat) (url : str) (data : Product),
    nth_error items i = Some (url, data) ->
    nth_error (menu_buttons k items) i = Some (button_label data, token (k + i))
    /\ nth_error (menu_tokens k items) i = Some (token (k + i), url).
Proof.
  induction items as [|[u d] l IH]; intros i k url data Hi; [now destruct i|].
  destruct i as [|i]; simpl in *.
  - injection Hi as -> ->. now rewrite Nat.add_0_r.
  - replace (k + S i)%nat with (S k + i)%nat by lia. now apply IH.
Qed.

(** The token map of a menu: [rm_i] stands for the [i]-th URL, and nothing
    else stands for anything. *)
Lemma menu_tokens_get (mine : dict str Product) (i : nat) (url : str)
  (rec : Product) :
  nth_error mine i = Some (url, rec) ->
  dict_get (token i) (menu_tokens 0 mine) = Some url.
Proof.
  intros Hi.
  pose proof (remove_menu_nth mine 0 [] [] i url) as H.
  rewrite remove_menu_0 in H. apply H.
  unfold keys. now rewrite (map_nth_error fst i mine Hi).
Qed.

Lemma menu_tokens_other (mine : dict str Product) (k : str) :
  (forall j, (j < List.length mine)%nat -> k <> token j) ->
  dict_get k (menu_tokens 0 mine) = None.
Proof.
  intros Hk.
  pose proof (remove_menu_other mine 0 [] [] k Hk) as H.
  now rewrite remove_menu_0 in H.
Qed.

Variable w : World.

Lemma remove_product_none (chat_id : Z) (r : Run) :
  has_no_products chat_id (products (self r)) = true ->
  remove_product w chat_id r
  = telegram w (ReplyText chat_id nothing_to_remove_message) r.
Proof.
  intros Hn. unfold remove_product. run. now rewrite Hn.
Qed.

Lemma remove_product_run (chat_id : Z) (r : Run) (mine : dict str Product) :
  dict_get chat_id (products (self r)) = Some mine ->
  mine <> [] ->
  remove_product w chat_id r
  = telegram w (ReplyKeyboard chat_id select_message (menu_buttons 0 mine))
      (with_menu r mine).
Proof.
  intros Hc Hm. unfold remove_product, has_no_products, with_menu. run.
  rewrite Hc. simpl. rewrite (remove_menu_0 mine).
  destruct mine as [|item rest]; [contradiction | reflexivity].
Qed.

Lemma button_callback_unanswered (chat_id : Z) (data : str) (r : Run) (e : exn) :
  telegram_call w (tick r) = Raise e ->
  button_callback w chat_id data r = (Raise e, untold r).
Proof.
  intros Ha. unfold button_callback. run. now rewrite telegram_run, Ha.
Qed.

Lemma button_callback_other (chat_id : Z) (data : str) (r : Run) :
  telegram_call w (tick r) = Ok tt ->
  startswith data (py "rm_") = false ->
  button_callback w chat_id data r = (Ok tt, told r (QueryAnswer chat_id)).
Proof.
  intros Ha Hd. unfold button_callback. run. now rewrite telegram_run, Ha, Hd.
Qed.

Lemma button_callback_refused (chat_id : Z) (data : str) (r : Run) :
  telegram_call w (tick r) = Ok tt ->
  startswith data (py "rm_") = true ->
  dict_get data (_remove_urls (self r)) = None ->
  button_callback w chat_id data r
  = telegram w (EditMessageText chat_id invalid_request_message)
      (told r (QueryAnswer chat_id)).
Proof.
  intros Ha Hd Hn. unfold button_callback. run.
  rewrite telegram_run, Ha, Hd. simpl. now rewrite Hn.
Qed.

Lemma button_callback_not_found (chat_id : Z) (data url : str) (r : Run) :
  telegram_call w (tick r) = Ok tt ->
  startswith data (py "rm_") = true ->
  dict_get data (_remove_urls (self r)) = Some url ->
  dict_get url (dict_of chat_id (products (self r))) = None ->
  button_callback w chat_id data r
  = telegram w (EditMessageText chat_id not_found_message)
      (told r (QueryAnswer chat_id)).
Proof.
  intros Ha Hd Hn Hu. unfold button_callback, dict_of in *. run.
  rewrite telegram_run, Ha, Hd. simpl. rewrite Hn.
  destruct (dict_get chat_id (products (self r))) as [mine|]; [|reflexivity].
  now rewrite Hu.
Qed.

Lemma button_callback_removed (chat_id : Z) (data url : str) (r : Run)
  (mine : dict str Product) (rec : Product) :
  telegram_call w (tick r) = Ok tt ->
  startswith data (py "rm_") = true ->
  dict_get data (_remove_urls (self r)) = Some url ->
  dict_get chat_id (products (self r)) = Some mine ->
  dict_get url mine = Some rec ->
  button_callback w chat_id data r
  = telegram w (EditMessageText chat_id (removed_message (name rec)))
      (removed w r chat_id url mine).
Proof.
  intros Ha Hd Hn Hc Hu. unfold button_callback, removed. run.
  rewrite telegram_run, Ha, Hd. simpl. rewrite Hn, Hc, Hu. simpl.
  rewrite save_products_run. unfold saved. reflexivity.
Qed.

End Menu.
(** C5, as the code has it. [remove_product] puts the menu of the chat's [n]
    products in place of the earlier token map before it replies, so the new
    map is in place whether or not the reply arrives. From then on, in any run
    that has this token map, whoever presses and whichever menu showed the
    button: if [query.answer()] raises, the exception leaves the handler and
    nothing else has happened. Otherwise a callback whose data starts with
    [rm_] and is none of [rm_0 .. rm_(n-1)], in particular a token [rm_i] of
    an earlier menu with [i >= n], does nothing but edit the message to the
    invalid-request message. A token [rm_i] with [i < n] is resolved against
    the new menu: when the pressing chat watches the [i]-th URL of the new
    menu, its record under that URL is removed and the store dumped before
    the confirmation is sent, and the handler raises exactly when that last
    call does; when it does not watch the URL, the handler does nothing but
    edit the message to the not-found message. The chat whose records the
    menu shows watches every URL of the menu while it still holds them. *)
Theorem C5_tokens_of_the_latest_menu `{U : Unicode} (w : World) (chat_id : Z)
  (r : Run) (mine : dict str Product) :
  dict_get chat_id (products (self r)) = Some mine ->
  mine <> [] ->
  unique_keys mine ->
  (remove_product w chat_id r
   = telegram w (ReplyKeyboard chat_id select_message (menu_buttons 0 mine))
       (with_menu r mine)
   /\ _remove_urls (self (snd (remove_product w chat_id r))) = menu_tokens 0 mine)
  /\ forall (w' : World) (c : Z) (r1 : Run),
       _remove_urls (self r1) = menu_tokens 0 mine ->
       (forall data e,
          telegram_call w' (tick r1) = Raise e ->
          button_callback w' c data r1 = (Raise e, untold r1))
       /\ (forall data,
             telegram_call w' (tick r1) = Ok tt ->
             startswith data (py "rm_") = true ->
             (forall j, (j < List.length mine)%nat -> data <> token j) ->
             button_callback w' c data r1
             = telegram w' (EditMessageText c invalid_request_message)
                 (told r1 (QueryAnswer c)))
       /\ (forall i,
             telegram_call w' (tick r1) = Ok tt ->
             (List.length mine <= i)%nat ->
             button_callback w' c (token i) r1
             = telegram w' (EditMessageText c invalid_request_message)
                 (told r1 (QueryAnswer c)))
       /\ (forall i url rec0,
             telegram_call w' (tick r1) = Ok tt ->
             nth_error mine i = Some (url, rec0) ->
             let r' := snd (button_callback w' c (token i) r1) in
             match dict_get url (dict_of c (products (self r1))) with
             | Some rec =>
                 products (self r')
                 = dict_set c (dict_del url (dict_of c (products (self r1))))
                     (products (self r1))
                 /\ _remove_urls (self r') = _remove_urls (self r1)
                 /\ (json_dump w' (S (tick r1)) = Ok tt ->
                     file r' = Some (products (self r')))
                 /\ fst (button_callback w' c (token i) r1)
                    = telegram_call w' (2 + tick r1)
                 /\ events_since r1 r'
                    = match telegram_call w' (2 + tick r1) with
                      | Ok _ => [QueryAnswer c;
                                 EditMessageText c (removed_message (name rec))]
                      | Raise _ => [QueryAnswer c]
                      end
             | None =>
                 button_callback w' c (token i) r1
                 = telegram w' (EditMessageText c not_found_message)
                     (told r1 (QueryAnswer c))
             end
             /\ (dict_get c (products (self r1)) = Some mine ->
                 dict_get url (dict_of c (products (self r1))) = Some rec0)).
Proof.
  intros Hc Hm Hu.
  pose proof (remove_product_run w chat_id r mine Hc Hm) as Hrun.
  split.
  { split; [exact Hrun|]. rewrite Hrun, telegram_run.
    now destruct (telegram_call w (tick (with_menu r mine))). }
  intros w' c r1 Ht.
  assert (Hother : forall data,
            telegram_call w' (tick r1) = Ok tt ->
            startswith data (py "rm_") = true ->
            (forall j, (j < List.length mine)%nat -> data <> token j) ->
            button_callback w' c data r1
            = telegram w' (EditMessageText c invalid_request_message)
                (told r1 (QueryAnswer c))).
  { intros data Ha Hd Hj. apply button_callback_refused; [exact Ha | exact Hd|].
    rewrite Ht. now apply menu_tokens_other. }
  split; [|split; [|split]].
  - intros data e Ha. now apply button_callback_unanswered.
  - exact Hother.
  - intros i Ha Hi. apply Hother; [exact Ha | apply startswith_token|].
    intros j Hj E. apply token_inj in E. lia.
  - intros i url rec0 Ha Hi r'.
    assert (Hn : dict_get (token i) (_remove_urls (self r1)) = Some url)
      by (rewrite Ht; now apply (menu_tokens_get mine i url rec0)).
    split.
    + destruct (dict_get url (dict_of c (products (self r1)))) as [rec|] eqn:Hr.
      * unfold dict_of in Hr |- *.
        destruct (dict_get c (products (self r1))) as [mine_c|] eqn:Hmc;
          [|discriminate].
        unfold r'.
        rewrite (button_callback_removed w' c (token i) url r1 mine_c rec Ha
                   (startswith_token i) Hn Hmc Hr).
        rewrite telegram_run. unfold removed.
        cbn [tick]. change (2 + tick r1)%nat with (S (S (tick r1))).
        destruct (telegram_call w' (S (S (tick r1)))) as [[]|e];
          cbn [fst snd told untold self products _remove_urls file];
          (split; [reflexivity|]); (split; [reflexivity|]);
          (split; [now intros ->|]); (split; [reflexivity|]);
          apply events_since_app; unfold told, untold; cbn [trace];
          now rewrite <- ?app_assoc.
      * now apply button_callback_not_found with (url := url);
          try apply startswith_token.
    + intros Hmine. unfold dict_of. rewrite Hmine.
      apply In_dict_get; [exact Hu|]. eapply nth_error_In, Hi.
Qed.

Lemma dict_get_run_two :
  dict_get 7%Z (products (self run_two))
  = Some [(url_a, item (py "Kettle") 38.99 2); (url_b, item (py "Toaster") 12.5 6)].
Proof. vm_compute. reflexivity. Qed.

Lemma unique_keys_run_two :
  unique_keys [(url_a, item (py "Kettle") 38.99 2); (url_b, item (py "Toaster") 12.5 6)].
Proof.
  unfold unique_keys. simpl. constructor; [|constructor; [tauto | constructor]].
  intros [E|[]]. vm_compute in E. discriminate.
Qed.

Lemma tokens_menu_one :
  _remove_urls (self menu_one)
  = menu_tokens 0
      [(url_a, item (py "Kettle") 38.99 2); (url_b, item (py "Toaster") 12.5 6)].
Proof. vm_compute. reflexivity. Qed.

Lemma C5_tokens_of_the_latest_menu_witness :
  button_callback toaster_shop 7 (token 2) menu_one
  = telegram toaster_shop (EditMessageText 7 invalid_request_message)
      (told menu_one (QueryAnswer 7)).
Proof.
  refine (proj1 (proj2 (proj2
            (proj2 (C5_tokens_of_the_latest_menu toaster_shop 7 run_two
                      [(url_a, item (py "Kettle") 38.99 2);
                       (url_b, item (py "Toaster") 12.5 6)]
                      dict_get_run_two _ unique_keys_run_two)
               toaster_shop 7%Z menu_one tokens_menu_one))) 2%nat _ _).
  - discriminate.
  - reflexivity.
  - simpl. lia.
Defined.

(** C5 as stated fails. The first menu issued [rm_0] for the kettle; the
    kettle was then removed through the second menu and a third menu put in
    place, whose [rm_0] is the toaster. Pressing the first menu's button now
    removes the toaster and confirms it, instead of the invalid-request
    message. Every call of the Bot API returned in this run. *)
Lemma C5_stale_token_removes_another_product :
  dict_get (token 0) (_remove_urls (self menu_one)) = Some url_a
  /\ _remove_urls (self menu_three) = [(token 0, url_b)]
  /\ button_callback toaster_shop 7 (token 0) menu_three
     = (Ok tt, snd (button_callback toaster_shop 7 (token 0) menu_three))
  /\ events_since menu_three (snd (button_callback toaster_shop 7 (token 0) menu_three))
     = [QueryAnswer 7; EditMessageText 7 (removed_message (py "Toaster"))]
  /\ removed_message (py "Toaster") <> invalid_request_message
  /\ products (self menu_three) = [(7%Z, [(url_b, item (py "Toaster") 12.5 6)])]
  /\ products (self (snd (button_callback toaster_shop 7 (token 0) menu_three)))
     = [(7%Z, [])].
Proof.
  repeat match goal with |- _ /\ _ => split end;
    try (vm_compute; reflexivity).
  intros E. vm_compute in E. discriminate.
Qed.
(** * Whole sweeps *)

Lemma requested_nil (r : Run) : requested r [] = r.
Proof. unfold requested. simpl. rewrite app_nil_r. apply run_eta. Qed.

Lemma requested_fetched (r : Run) (url : str) (urls : list str) :
  requested (fetched r url) urls = requested r (url :: urls).
Proof.
  unfold requested, fetched. cbn [self file tick trace flat_map List.length].
  f_equal; [lia|]. now rewrite <- app_assoc.
Qed.

Lemma requested_app (r : Run) (a b : list str) :
  requested (requested r a) b = requested r (a ++ b).
Proof.
  unfold requested. cbn [self file tick trace].
  rewrite flat_map_app, length_app, <- app_assoc. f_equal. lia.
Qed.

Lemma In_keys_dict_get {K V} `{Key K} (k : K) (d : dict K V) :
  In k (keys d) -> exists v, dict_get k d = Some v.
Proof.
  induction d as [|[k' v'] d IH]; simpl; [tauto|].
  destruct (keyb k k') eqn:E; [eauto|].
  intros [->|Hin]; [|auto]. now rewrite keyb_refl in E.
Qed.

Section QuietSweep.
Context `{U : Unicode}.
Variable w : World.

Lemma quiet_records (chat_id : Z) (items : list (str * Product)) :
  forall r,
    (forall url rec r0, In (url, rec) items ->
       match fst (get_price w url r0) with
       | Ok (Some (price, _)) => (price =? last_price rec)%float = true
       | _ => True
       end) ->
    for_each items (check_record w chat_id) r = (Ok tt, requested r (keys items)).
Proof.
  induction items as [|[url data] rest IH]; intros r Hq.
  - simpl. now rewrite requested_nil.
  - assert (Hstep : check_record w chat_id (url, data) r = (Ok tt, fetched r url)).
    { specialize (Hq url data r (or_introl eq_refl)).
      rewrite get_price_run in Hq. cbn [fst] in Hq.
      destruct (scrape w (session_get w (S (tick r)) url)) as [[price nm]|] eqn:Hs.
      - now apply (check_record_same w chat_id url data r price nm).
      - now apply check_record_failed. }
    cbn [for_each]. unfold bind at 1. rewrite Hstep, IH.
    + now rewrite requested_fetched.
    + intros u d r0 Hin. apply Hq. now right.
Qed.

Lemma quiet_chats (p : Products) (chats : list Z) :
  nothing_new w p ->
  (forall c, In c chats -> In c (keys p)) ->
  forall r, products (self r) = p ->
    for_each chats (check_chat w) r
    = (Ok tt, requested r (flat_map (fun c => keys (dict_of c p)) chats)).
Proof.
  intros Hq. induction chats as [|c chats IH]; intros Hin r Hr.
  - simpl. now rewrite requested_nil.
  - destruct (In_keys_dict_get c p (Hin c (or_introl eq_refl))) as [mine Hc].
    assert (Hstep : check_chat w c r = (Ok tt, requested r (keys mine))).
    { unfold check_chat. run. rewrite Hr, Hc. simpl.
      apply quiet_records. intros url rec r0 Hu.
      apply (Hq c mine url rec r0); [now apply dict_get_In | exact Hu]. }
    cbn [for_each flat_map]. unfold bind at 1. rewrite Hstep, IH.
    + unfold dict_of at 2. now rewrite Hc, requested_app.
    + intros c' Hc'. apply Hin. now right.
    + exact Hr.
Qed.

End QuietSweep.

(** A turn of the polling loop in which every call of [get_price] fails or
    returns the stored price calls [get_price] once for every record, chat by
    chat in the order of the store, and does nothing else: no message is sent,
    the bot and the file are as before, and the turn returns normally. *)
Theorem check_prices_once_nothing_new `{U : Unicode} (w : World) (r : Run) :
  nothing_new w (products (self r)) ->
  check_prices_once w r
  = (Ok tt, requested r (sweep_urls (products (self r)))).
Proof.
  intros Hq. unfold check_prices_once, sweep, try_except, sweep_urls.
  unfold bind, get_products, get_self, ret. simpl.
  now rewrite (quiet_chats w (products (self r)) (keys (products (self r))) Hq).
Qed.
(** * A sweep, record by record *)






Section Items.
Context `{U : Unicode}.
Variable w : World.







End Items.



Lemma products_run_two :
  products (self run_two)
  = [(7%Z, [(url_a, item (py "Kettle") 38.99 2); (url_b, item (py "Toaster") 12.5 6)])].
Proof. vm_compute. reflexivity. Qed.

Lemma well_keyed_run_two : well_keyed (products (self run_two)).
Proof.
  rewrite products_run_two. split.
  - unfold unique_keys. cbn [keys map fst]. constructor; [intros []|constructor].
  - intros c mine [E|[]]. injection E as _ <-. apply unique_keys_run_two.
Qed.


Lemma records_of_app (c : Z) (url : str) (p q : Products) :
  records_of c url (p ++ q) = records_of c url p ++ records_of c url q.
Proof. unfold records_of. apply flat_map_app. Qed.

Lemma list_products_run (chat_id : Z) (r : Run) :
  list_products chat_id r
  = (Ok tt, said r (ReplyText chat_id
                      (if has_no_products chat_id (products (self r))
                       then no_products_message
                       else listing (dict_of chat_id (products (self r)))))).
Proof.
  unfold list_products, has_no_products, dict_of, listing. run.
  destruct (dict_get chat_id (products (self r))) as [[|item mine]|]; reflexivity.
Qed.






(** * The remove menu and the callback, in full *)

Section MenuShape.
Context `{U : Unicode}.

(** [remove] makes one call of the Bot API, its reply, and raises exactly
    when that call raises; the store and the file are left alone. For a chat
    without products the reply says that there is nothing to remove and the
    token map stays as it was. Otherwise the token map is replaced, before
    the reply and so even when the reply raises, by [rm_0 .. rm_(n-1)] for
    the chat's records in store order, and the reply shows one button per
    record, labelled with name and price. *)
Theorem remove_product_menu (w : World) (chat_id : Z) (r : Run) :
  let mine := dict_of chat_id (products (self r)) in
  let r' := snd (remove_product w chat_id r) in
  remove_product w chat_id r
  = (if has_no_products chat_id (products (self r))
     then telegram w (ReplyText chat_id nothing_to_remove_message) r
     else telegram w (ReplyKeyboard chat_id select_message (menu_buttons 0 mine))
            (with_menu r mine))
  /\ fst (remove_product w chat_id r) = telegram_call w (tick r)
  /\ products (self r') = products (self r)
  /\ file r' = file r
  /\ _remove_urls (self r')
     = (if has_no_products chat_id (products (self r))
        then _remove_urls (self r) else menu_tokens 0 mine)
  /\ List.length (menu_buttons 0 mine) = List.length mine
  /\ forall i url data,
       nth_error mine i = Some (url, data) ->
       nth_error (menu_buttons 0 mine) i = Some (button_label data, token i)
       /\ nth_error (menu_tokens 0 mine) i = Some (token i, url).
Proof.
  intros mine r'.
  assert (Hrun : remove_product w chat_id r
                 = (if has_no_products chat_id (products (self r))
                    then telegram w (ReplyText chat_id nothing_to_remove_message) r
                    else telegram w
                           (ReplyKeyboard chat_id select_message (menu_buttons 0 mine))
                           (with_menu r mine))).
  { destruct (has_no_products chat_id (products (self r))) eqn:Hn.
    - now apply remove_product_none.
    - unfold mine, dict_of. unfold has_no_products in Hn.
      destruct (dict_get chat_id (products (self r))) as [[|item rest]|] eqn:Hc;
        try discriminate.
      now apply remove_product_run. }
  split; [exact Hrun|]. unfold r'. rewrite Hrun, !telegram_run.
  change (tick (with_menu r mine)) with (tick r).
  repeat match goal with |- _ /\ _ => split end.
  - destruct (has_no_products chat_id (products (self r)));
      now destruct (telegram_call w (tick r)) as [[]|e].
  - destruct (has_no_products chat_id (products (self r)));
      now destruct (telegram_call w (tick r)).
  - destruct (has_no_products chat_id (products (self r)));
      now destruct (telegram_call w (tick r)).
  - destruct (has_no_products chat_id (products (self r)));
      now destruct (telegram_call w (tick r)).
  - apply menu_buttons_length.
  - intros i url data Hi. now apply (menu_nth _ i 0 url data).
Qed.

End MenuShape.

Section RecordsOf.
Context {V : Type}.

Lemma filter_key_absent (u : str) (d : dict str V) :
  dict_get u d = None -> filter (fun ur => keyb u (fst ur)) d = [].
Proof.
  induction d as [|[k v] d IH]; [reflexivity|].
  cbn [dict_get filter fst]. destruct (keyb u k); [discriminate | exact IH].
Qed.

Lemma filter_key_del (u url : str) (d : dict str V) :
  unique_keys d ->
  filter (fun ur => keyb u (fst ur)) (dict_del url d)
  = if keyb u url then [] else filter (fun ur => keyb u (fst ur)) d.
Proof.
  unfold unique_keys. induction d as [|[k v] d IH]; intros Hnd.
  - now destruct (keyb u url).
  - inversion Hnd as [|? ? Hk Hd]; subst. cbn [dict_del filter fst].
    destruct (keyb url k) eqn:Ek.
    + apply keyb_eq in Ek. subst k.
      destruct (keyb u url) eqn:Eu; [|reflexivity].
      apply keyb_eq in Eu. subst u.
      apply filter_key_absent.
      destruct (dict_get url d) eqn:G; [|reflexivity].
      now apply dict_get_In, In_keys in G.
    + cbn [filter fst]. rewrite (IH Hd).
      destruct (keyb u url) eqn:Eu; [|reflexivity].
      apply keyb_eq in Eu. subst u. now rewrite Ek.
Qed.

End RecordsOf.

Lemma dict_set_same {K V} `{Key K} (k : K) (v : V) (d : dict K V) :
  dict_get k d = Some v -> dict_set k v d = d.
Proof.
  induction d as [|[k' v'] d IH]; simpl; [discriminate|].
  destruct (keyb k k') eqn:E.
  - now intros [= ->].
  - intros Hg. now rewrite IH.
Qed.

Lemma records_of_set (c c' : Z) (u : str) (mine mine' : dict str Product)
  (p : Products) :
  unique_keys p ->
  dict_get c p = Some mine ->
  records_of c' u (dict_set c mine' p)
  = if keyb c' c
    then map snd (filter (fun ur => keyb u (fst ur)) mine')
    else records_of c' u p.
Proof.
  unfold unique_keys. induction p as [|[k v] p IH]; intros Hnd Hg;
    [discriminate|].
  inversion Hnd as [|? ? Hk Hp]; subst.
  cbn [dict_get dict_set] in *.
  destruct (keyb c k) eqn:Ek.
  - apply keyb_eq in Ek. subst k. rewrite !records_of_cons.
    destruct (keyb c' c) eqn:Ec.
    + apply keyb_eq in Ec. subst c'.
      now rewrite (records_of_absent c u p Hk), app_nil_r.
    + reflexivity.
  - rewrite !records_of_cons, (IH Hp Hg).
    destruct (keyb c' c) eqn:Ec; [|reflexivity].
    apply keyb_eq in Ec. subst c'. now rewrite Ek.
Qed.

Lemma records_of_get (c : Z) (u : str) (mine : dict str Product) (p : Products) :
  unique_keys p ->
  dict_get c p = Some mine ->
  records_of c u p = map snd (filter (fun ur => keyb u (fst ur)) mine).
Proof.
  intros Hnd Hg.
  rewrite <- (dict_set_same c mine p Hg) at 1.
  now rewrite (records_of_set c c u mine mine p Hnd Hg), keyb_refl.
Qed.

(** A callback never touches the token map. The only records it can drop
    are those of the pressing chat under the URL its token stands for in the
    current token map, and only when [query.answer()] returned: every other
    pair keeps its records. When [query.answer()] raises, the exception leaves
    the handler and nothing else has happened. Data that does not start with
    [rm_] is answered and otherwise ignored; for a token whose URL the chat
    does not watch, the handler only edits the message to the not-found
    message. *)
Theorem button_callback_effect `{U : Unicode} (w : World) (chat_id : Z)
  (data : str) (r : Run) :
  well_keyed (products (self r)) ->
  let r' := snd (button_callback w chat_id data r) in
  _remove_urls (self r') = _remove_urls (self r)
  /\ (forall c u,
        records_of c u (products (self r'))
        = if accepts w r && selects (_remove_urls (self r)) chat_id data c u
          then []
          else records_of c u (products (self r)))
  /\ (forall e,
        telegram_call w (tick r) = Raise e ->
        button_callback w chat_id data r = (Raise e, untold r))
  /\ (telegram_call w (tick r) = Ok tt ->
      startswith data (py "rm_") = false ->
      button_callback w chat_id data r = (Ok tt, told r (QueryAnswer chat_id)))
  /\ (forall url,
        telegram_call w (tick r) = Ok tt ->
        startswith data (py "rm_") = true ->
        dict_get data (_remove_urls (self r)) = Some url ->
        dict_get url (dict_of chat_id (products (self r))) = None ->
        button_callback w chat_id data r
        = telegram w (EditMessageText chat_id not_found_message)
            (told r (QueryAnswer chat_id))).
Proof.
  intros [Hp Hin] r'.
  assert (Hlast : forall e r0, self (snd (telegram w e r0)) = self r0).
  { intros e r0. rewrite telegram_run.
    now destruct (telegram_call w (tick r0)). }
  unfold accepts, selects.
  destruct (telegram_call w (tick r)) as [[]|e0] eqn:Ha.
  2:{ unfold r'. rewrite (button_callback_unanswered w chat_id data r e0 Ha).
      cbn [fst snd self untold andb].
      split; [reflexivity|]. split; [reflexivity|].
      split; [now intros e [= ->]|].
      split; intros; congruence. }
  cbn [andb].
  destruct (startswith data (py "rm_")) eqn:Hd.
  2:{ unfold r'. rewrite (button_callback_other w chat_id data r Ha Hd).
      cbn [fst snd self told andb].
      split; [reflexivity|]. split; [reflexivity|].
      split; [intros; congruence|].
      split; [reflexivity | intros; congruence]. }
  destruct (dict_get data (_remove_urls (self r))) as [url|] eqn:Hn.
  2:{ unfold r'. rewrite (button_callback_refused w chat_id data r Ha Hd Hn).
      rewrite Hlast. cbn [self told].
      split; [reflexivity|].
      split; [intros c u; now rewrite andb_false_r|].
      split; [intros; congruence|].
      split; intros; congruence. }
  destruct (dict_get url (dict_of chat_id (products (self r)))) as [rec|] eqn:Hu.
  - unfold dict_of in Hu.
    destruct (dict_get chat_id (products (self r))) as [mine|] eqn:Hc;
      [|discriminate].
    unfold r'.
    rewrite (button_callback_removed w chat_id data url r mine rec Ha Hd Hn Hc Hu).
    rewrite Hlast. unfold removed. cbn [self products _remove_urls].
    split; [reflexivity|]. split.
    + intros c u. rewrite (records_of_set chat_id c u mine _ _ Hp Hc).
      destruct (keyb c chat_id) eqn:Ec; cbn [andb]; [|reflexivity].
      apply keyb_eq in Ec. subst c.
      rewrite filter_key_del
        by (apply (Hin chat_id); now apply dict_get_In).
      destruct (keyb u url); [reflexivity|].
      now rewrite (records_of_get chat_id u mine _ Hp Hc).
    + split; [intros; congruence|]. split; [intros; congruence|].
      intros url' _ _ [= <-]. unfold dict_of. rewrite Hc. congruence.
  - unfold r'.
    rewrite (button_callback_not_found w chat_id data url r Ha Hd Hn Hu).
    rewrite Hlast. cbn [self told].
    split; [reflexivity|]. split.
    + intros c u. destruct (keyb c chat_id) eqn:Ec; cbn [andb]; [|reflexivity].
      apply keyb_eq in Ec. subst c.
      destruct (keyb u url) eqn:Eu; [|reflexivity].
      apply keyb_eq in Eu. subst u. unfold dict_of in Hu.
      destruct (dict_get chat_id (products (self r))) as [mine|] eqn:Hc.
      * now rewrite (records_of_get chat_id url mine _ Hp Hc), filter_key_absent.
      * rewrite (records_of_absent chat_id url) by now apply dict_get_None.
        reflexivity.
    + split; [intros; congruence|]. split; [intros; congruence|].
      intros url' _ _ _ _. reflexivity.
Qed.

Lemma well_keyed_menu_one : well_keyed (products (self menu_one)).
Proof.
  assert (E : products (self menu_one) = products (self run_two))
    by (vm_compute; reflexivity).
  rewrite E. apply well_keyed_run_two.
Qed.

Lemma button_callback_effect_witness :
  records_of 7 url_a
    (products (self (snd (button_callback toaster_shop 7 (token 0) menu_one))))
  = [].
Proof.
  pose proof (button_callback_effect toaster_shop 7 (token 0) menu_one
                well_keyed_menu_one) as H.
  cbv zeta in H. rewrite (proj1 (proj2 H) 7%Z url_a). vm_compute. reflexivity.
Defined.

(** A record whose stored price is not zero, at its turn in a sweep, with the
    extractor returning a price: if the price is the stored one, the turn
    ends after the two requests and nothing else happened; if it differs, the
    alert built from the stored record and the new price is handed to the
    Telegram API exactly once, the record gets the new price and the time of
    the clock and keeps its name, and the store is dumped. *)
Theorem check_record_notifies_once `{U : Unicode} (w : World) (chat_id : Z)
  (url : str) (data : Product) (mine : dict str Product) (r : Run)
  (current_price : float) (nm : str) :
  fst (get_price w url r) = Ok (Some (current_price, nm)) ->
  dict_get chat_id (products (self r)) = Some mine ->
  dict_get url mine = Some data ->
  (last_price data =? 0)%float = false ->
  let r' := snd (check_record w chat_id (url, data) r) in
  let stored := {| name := name data; last_price := current_price;
                   last_check := datetime_now w (3 + tick r) |} in
  fst (check_record w chat_id (url, data) r) = Ok tt
  /\ ((current_price =? last_price data)%float = true -> r' = fetched r url)
  /\ ((current_price =? last_price data)%float = false ->
      (exists delivered,
         events_since r r'
         = [SessionGet homepage; SessionGet url;
            SendMessage chat_id (alert_of url data current_price) delivered])
      /\ products (self r')
         = dict_set chat_id (dict_set url stored mine) (products (self r))
      /\ (json_dump w (4 + tick r) = Ok tt -> file r' = Some (products (self r')))).
Proof.
  intros Hg Hc Hu Hz r' stored. apply get_price_found in Hg. unfold r'.
  destruct (current_price =? last_price data)%float eqn:He.
  - rewrite (check_record_same w chat_id url data r _ _ Hg He).
    split; [reflexivity|]. split; [reflexivity | discriminate].
  - rewrite (check_record_changed w chat_id url data r _ _ mine data Hg He Hz Hc Hu).
    split; [reflexivity|]. split; [discriminate|]. intros _.
    cbn [snd repriced self products file]. split; [|split].
    + eexists. now apply events_since_app.
    + reflexivity.
    + now intros ->.
Qed.

Lemma check_record_notifies_once_witness :
  exists delivered,
    events_since run_added
      (snd (check_record (shop (py "Kettle") (fun _ => py "35,-") true) 7
              (url_a, item (py "Kettle") 38.99 2) run_added))
    = [SessionGet homepage; SessionGet url_a;
       SendMessage 7 (alert_of url_a (item (py "Kettle") 38.99 2) 35%float) delivered].
Proof.
  refine (proj1 (proj2 (proj2 (check_record_notifies_once
            (shop (py "Kettle") (fun _ => py "35,-") true) 7 url_a
            (item (py "Kettle") 38.99 2) [(url_a, item (py "Kettle") 38.99 2)]
            run_added 35%float (py "Kettle") _ _ _ _)) _)).
  - vm_compute. reflexivity.
  - vm_compute. reflexivity.
  - vm_compute. reflexivity.
  - vm_compute. reflexivity.
  - vm_compute. reflexivity.
Defined.

(** ** What polling never does *)

Lemma map_dict_set {K V B} `{Key K} (f : K * V -> B) (k : K) (v v0 : V)
  (d : dict K V) :
  dict_get k d = Some v0 -> f (k, v) = f (k, v0) ->
  map f (dict_set k v d) = map f d.
Proof.
  intros Hg Hf. induction d as [|[k' v'] d IH]; simpl in *; [discriminate|].
  destruct (keyb k k') eqn:E; simpl.
  - apply keyb_eq in E. subst k'. injection Hg as ->. now rewrite Hf.
  - now rewrite IH.
Qed.

Lemma titles_set (p : Products) (c : Z) (mine : dict str Product) (url : str)
  (rec rec' : Product) :
  dict_get c p = Some mine -> dict_get url mine = Some rec ->
  name rec' = name rec ->
  titles (dict_set c (dict_set url rec' mine) p) = titles p.
Proof.
  intros Hc Hu Hn. unfold titles. apply (map_dict_set _ c _ mine p Hc).
  cbn [fst snd]. f_equal. apply (map_dict_set _ url _ rec mine Hu).
  cbn [fst snd]. now rewrite Hn.
Qed.

Lemma check_prices_once_returns `{U : Unicode} (w : World) (r : Run) :
  fst (check_prices_once w r) = Ok tt.
Proof.
  unfold check_prices_once, try_except.
  destruct (sweep w r) as [[[]|e] r']; reflexivity.
Qed.

(** However many turns the polling loop runs and whatever the world does, it
    returns normally and the store watches what it watched: no chat and no
    record is added or removed, the order stays, and no name changes (only
    prices and times of check do). *)
Theorem check_prices_keeps_titles `{U : Unicode} (w : World) (n : nat) (r : Run) :
  fst (check_prices w n r) = Ok tt
  /\ titles (products (self (snd (check_prices w n r))))
     = titles (products (self r)).
Proof.
  revert r. induction n as [|n IH]; intros r; [now split|].
  cbn [check_prices]. unfold bind.
  pose proof (check_prices_once_returns w r) as Hret.
  assert (Hkeep : titles (products (self (snd (check_prices_once w r))))
                  = titles (products (self r))).
  { apply (keeps_check_prices_once
             (fun p => titles p = titles (products (self r))) (fun _ => True));
      auto.
    - intros p c mine url rec price Hp Hc Hu _. rewrite <- Hp.
      now apply (titles_set p c mine url rec).
    - intros p c mine url rec ts Hp Hc Hu. rewrite <- Hp.
      now apply (titles_set p c mine url rec). }
  destruct (check_prices_once w r) as [[[]|e] r1]; [|discriminate].
  cbn [snd] in Hkeep. destruct (IH r1) as [H1 H2]. split; [exact H1|].
  now rewrite H2.
Qed.
(** * What the parse of a cleaned-up text reads *)

Section Parse.
Context `{U : Unicode}.

Lemma digits_of_separated (raw : str) :
  filter (is_not period) (separated raw) = digits_of raw.
Proof.
  unfold separated, digits_of, replace, kept, is_not.
  induction raw as [|c raw IH]; [reflexivity|].
  cbn [filter]. destruct (isdigit c) eqn:Hd.
  - cbn [orb filter map].
    destruct (c =? comma) eqn:Ec.
    { apply N.eqb_eq in Ec. subst c. rewrite comma_not_digit in Hd. discriminate. }
    destruct (c =? period) eqn:Ep.
    { apply N.eqb_eq in Ep. subst c. rewrite period_not_digit in Hd. discriminate. }
    cbn [negb]. now rewrite IH.
  - cbn [orb]. destruct (c =? period) eqn:Ep.
    + cbn [orb filter map]. apply N.eqb_eq in Ep. subst c.
      change (period =? comma) with false. cbn iota.
      rewrite N.eqb_refl. cbn [negb]. exact IH.
    + cbn [orb]. destruct (c =? comma) eqn:Ec; [|exact IH].
      cbn [filter map]. rewrite Ec, N.eqb_refl. cbn [negb]. exact IH.
Qed.

Lemma forallb_filter_not (x : char) (s : str) :
  forallb (is_not x) (filter (is_not x) s) = true.
Proof. apply forallb_forall. intros c Hc. now apply filter_In in Hc. Qed.

Lemma count_zero_none (x : char) (s : str) :
  count x s = 0%nat -> forallb (is_not x) s = true.
Proof.
  unfold count. induction s as [|c s IH]; [reflexivity|].
  cbn [filter forallb]. unfold is_not at 1. rewrite (N.eqb_sym c x).
  destruct (x =? c); [discriminate|]. exact IH.
Qed.

(** The cleaned-up text of a raw text with a separator: the digits before the
    last separator, a period, the digits after it. *)
Lemma clean_price_text_separated (raw : str) :
  count period (separated raw) <> 0%nat ->
  clean_price_text raw
  = filter (is_not period) (before_last period (separated raw))
    ++ period :: after_last period (separated raw).
Proof.
  intros Hc. rewrite clean_price_text_as_specified.
  unfold normalized_as_specified. fold (replace comma period (filter kept raw)).
  fold (separated raw).
  destruct (1 <? count period (separated raw))%nat eqn:H1; [reflexivity|].
  apply Nat.ltb_ge in H1.
  destruct (last_occurrence period (separated raw) Hc) as [Hs Ha].
  assert (Hb : forallb (is_not period) (before_last period (separated raw)) = true).
  { apply count_zero_none. rewrite Hs in H1.
    rewrite count_app in H1.
    change (period :: after_last period (separated raw))
      with ([period] ++ after_last period (separated raw)) in H1.
    rewrite count_app in H1. cbn in H1. lia. }
  now rewrite (filter_all _ _ Hb), <- Hs.
Qed.

Lemma clean_price_text_plain (raw : str) :
  count period (separated raw) = 0%nat -> clean_price_text raw = digits_of raw.
Proof.
  intros Hc. rewrite clean_price_text_as_specified.
  unfold normalized_as_specified. fold (replace comma period (filter kept raw)).
  fold (separated raw). rewrite Hc. cbn [Nat.ltb Nat.leb].
  rewrite <- digits_of_separated. symmetry.
  now apply filter_all, count_zero_none.
Qed.

End Parse.

(** The parse of a cleaned-up price text reads all digits of the raw text as
    one number, with as many decimals as there are digits after the last comma
    or period of the raw text. It fails exactly when the raw text has no digit
    or has a digit that is no decimal digit. *)
Theorem float_of_clean_price_text `{U : Unicode} (raw : str) :
  float_of_str (clean_price_text raw)
  = match digits_of raw, digits_value 0 (digits_of raw) with
    | _ :: _, Some n => Ok (decimal_to_float n (decimals_of raw))
    | _, _ => Raise ValueError
    end.
Proof.
  unfold decimals_of. destruct (count period (separated raw)) as [|k] eqn:Hc.
  - rewrite (clean_price_text_plain raw Hc). unfold float_of_str.
    rewrite split_none.
    + now destruct (digits_of raw).
    + rewrite <- digits_of_separated. apply forallb_filter_not.
  - assert (Hne : count period (separated raw) <> 0%nat) by lia.
    rewrite (clean_price_text_separated raw Hne).
    destruct (last_occurrence period (separated raw) Hne) as [Hs Ha].
    unfold float_of_str.
    rewrite split_app, (split_none period _ (forallb_filter_not _ _)),
      (split_none period _ Ha).
    cbn [app].
    assert (Hd : filter (is_not period) (before_last period (separated raw))
                 ++ after_last period (separated raw) = digits_of raw).
    { rewrite <- digits_of_separated. rewrite Hs at 3.
      rewrite filter_app. cbn [filter]. unfold is_not at 3.
      rewrite N.eqb_refl. cbn [negb]. now rewrite (filter_all _ _ Ha). }
    rewrite Hd. now destruct (digits_of raw).
Qed.
Lemma nothing_new_offline (p : Products) : nothing_new offline p.
Proof.
  intros c mine url rec r0 _ _. now rewrite get_price_run.
Qed.

Lemma check_prices_once_nothing_new_witness :
  check_prices_once offline run_added
  = (Ok tt, requested run_added (sweep_urls (products (self run_added)))).
Proof.
  exact (check_prices_once_nothing_new offline run_added
           (nothing_new_offline (products (self run_added)))).
Defined.

(** * The selector loops of [get_price] *)

Lemma find_first {A} (f : A -> bool) (l : list A) (x : A) :
  find f l = Some x
  <-> exists before after,
        l = before ++ x :: after /\ f x = true
        /\ forall y, In y before -> f y = false.
Proof.
  induction l as [|a l IH]; cbn [find].
  - split; [discriminate|]. intros (b & a & H & _). now destruct b.
  - destruct (f a) eqn:Ha.
    + split.
      * intros [= <-]. exists [], l. repeat split; [assumption | intros ? []].
      * intros (b & af & E & Hx & Hb). destruct b as [|y b].
        -- now injection E as ->.
        -- injection E as <- _. rewrite (Hb a) in Ha by now left. discriminate.
    + rewrite IH. split.
      * intros (b & af & -> & Hx & Hb). exists (a :: b), af.
        repeat split; [assumption|]. intros y [<-|Hy]; [assumption | now apply Hb].
      * intros (b & af & E & Hx & Hb). destruct b as [|y b].
        -- injection E as -> _. congruence.
        -- injection E as <- ->. exists b, af. repeat split; [assumption|].
           intros z Hz. apply Hb. now right.
Qed.

Lemma find_nothing {A} (f : A -> bool) (l : list A) :
  find f l = None <-> forall y, In y l -> f y = false.
Proof.
  split; [apply find_none|]. intros H.
  destruct (find f l) as [x|] eqn:E; [|reflexivity].
  apply find_some in E as [Hin Hx]. rewrite (H x Hin) in Hx. discriminate.
Qed.

Lemma find_filter {A} (f g : A -> bool) (l : list A) :
  find f (filter g l) = find (fun x => g x && f x) l.
Proof.
  induction l as [|a l IH]; [reflexivity|]. cbn [filter find].
  destruct (g a); cbn [find andb]; [now rewrite IH | exact IH].
Qed.

Section Cascade.
Context {S : Type} (m : S -> Element -> bool)
  (loop : list S -> Soup -> option Element).
Hypothesis loop_nil : forall soup, loop [] soup = None.
Hypothesis loop_cons : forall s sels soup,
  loop (s :: sels) soup
  = match find (m s) soup with
    | Some e => Some e
    | None => loop sels soup
    end.

Lemma loop_none (sels : list S) (soup : Soup) :
  loop sels soup = None <-> no_match m sels soup.
Proof.
  unfold no_match. induction sels as [|s sels IH].
  - rewrite loop_nil. split; [intros _ ? ? [] | reflexivity].
  - rewrite loop_cons. destruct (find (m s) soup) as [e|] eqn:E.
    + split; [discriminate|]. intros H.
      apply find_some in E as [Hin He]. rewrite (H s e) in He; [discriminate | now left | assumption].
    + rewrite IH. split.
      * intros H s' e [<-|Hs] He; [|now apply H].
        now apply (proj1 (find_nothing _ _) E).
      * intros H s' e Hs He. apply H; [now right | assumption].
Qed.

Lemma loop_some (sels : list S) (soup : Soup) (e : Element) :
  loop sels soup = Some e <-> first_match m sels soup e.
Proof.
  unfold first_match. induction sels as [|s sels IH].
  - rewrite loop_nil. split; [discriminate|].
    intros (pre & ? & ? & ? & ? & E & _). now destruct pre.
  - rewrite loop_cons. destruct (find (m s) soup) as [e0|] eqn:E.
    + split.
      * intros [= ->]. apply find_first in E as (b & a & -> & He & Hb).
        exists [], s, sels, b, a. repeat split; try assumption. intros ? ? [].
      * intros (pre & sel & post & b & a & Es & Ep & He & Hb & Hpre).
        destruct pre as [|s0 pre].
        -- injection Es as <- _. f_equal.
           assert (E' : find (m s) soup = Some e)
             by (apply find_first; now exists b, a).
           congruence.
        -- injection Es as <- _. apply find_some in E as [Hin He0].
           rewrite (Hpre s e0) in He0; [discriminate | now left | assumption].
    + rewrite IH. split.
      * intros (pre & sel & post & b & a & -> & Ep & He & Hb & Hpre).
        exists (s :: pre), sel, post, b, a. repeat split; try assumption.
        intros s' e' [<-|Hs] He'; [|now apply Hpre].
        now apply (proj1 (find_nothing _ _) E).
      * intros (pre & sel & post & b & a & Es & Ep & He & Hb & Hpre).
        destruct pre as [|s0 pre].
        -- injection Es as <- _.
           rewrite (proj1 (find_nothing _ _) E e) in He; [discriminate|].
           rewrite Ep. apply in_elt.
        -- injection Es as <- ->. exists pre, sel, post, b, a.
           repeat split; try assumption.
           intros s' e' Hs He'. apply Hpre; [now right | assumption].
Qed.

End Cascade.

Lemma find_name_cons (s : str * option (str * str)) sels (soup : Soup) :
  find_name (s :: sels) soup
  = match find (name_match s) soup with
    | Some e => Some e
    | None => find_name sels soup
    end.
Proof. now destruct s as [t [[k v]|]]. Qed.

Lemma find_price_cons `{U : Unicode} (s : str) sels (soup : Soup) :
  find_price (s :: sels) soup
  = match find (price_match s) soup with
    | Some e => Some e
    | None => find_price sels soup
    end.
Proof.
  change (find_price (s :: sels) soup)
    with (match find (fun e => any_isdigit (text e)) (find_all_class s soup) with
          | Some e => Some e
          | None => find_price sels soup
          end).
  unfold find_all_class. now rewrite find_filter.
Qed.

(** The name of a product is read from the first element, in document order,
    that answers the first of the name selectors any element answers. With
    the selectors of [get_price] there is none exactly when the page has no
    [h1] and no [span] or [div] whose [data-test] is [title]. *)
Theorem find_name_first_match (sels : list (str * option (str * str)))
  (soup : Soup) :
  (forall e, find_name sels soup = Some e <-> first_match name_match sels soup e)
  /\ (find_name sels soup = None <-> no_match name_match sels soup)
  /\ (find_name name_selectors soup = None
      <-> forall e, In e soup ->
            eqb_str (tag e) (py "h1") = false
            /\ (eqb_str (tag e) (py "span") || eqb_str (tag e) (py "div"))
               && has_attr (py "data-test") (py "title") e = false).
Proof.
  assert (Hnone : forall l, find_name l soup = None <-> no_match name_match l soup)
    by (intros l; apply (loop_none name_match find_name); [reflexivity | apply find_name_cons]).
  split; [|split].
  - intros e. apply (loop_some name_match find_name); [reflexivity | apply find_name_cons].
  - apply Hnone.
  - rewrite Hnone. unfold no_match, name_selectors. split.
    + intros H e He.
      pose proof (H (py "h1", None) e) as H1.
      pose proof (H (py "span", Some (py "data-test", py "title")) e) as H2.
      pose proof (H (py "div", Some (py "data-test", py "title")) e) as H3.
      unfold name_match in H1, H2, H3. cbn [fst snd] in H1, H2, H3.
      rewrite andb_true_r in H1.
      rewrite H1 by (cbn [In]; tauto || assumption).
      split; [reflexivity|].
      specialize (H2 ltac:(cbn [In]; tauto) He).
      specialize (H3 ltac:(cbn [In]; tauto) He).
      destruct (eqb_str (tag e) (py "span")); [exact H2|].
      destruct (eqb_str (tag e) (py "div")); [exact H3 | reflexivity].
    + intros H s e Hs He. destruct (H e He) as [H1 H2]. unfold name_match.
      cbn [In] in Hs.
      destruct Hs as [<-|[<-|[<-|[<-|[<-|[]]]]]]; cbn [fst snd];
        rewrite ?H1; try reflexivity.
      * destruct (eqb_str (tag e) (py "span")); [exact H2 | reflexivity].
      * destruct (eqb_str (tag e) (py "span")); cbn [orb andb] in H2;
          [now rewrite H2, andb_false_r|].
        destruct (eqb_str (tag e) (py "div")); [exact H2 | reflexivity].
Qed.

(** The price is read from the first element, in document order, that carries
    the first of the price classes under which some element has a digit in
    its text; there is none exactly when no element carrying one of the
    classes has a digit in its text. *)
Theorem find_price_first_match `{U : Unicode} (sels : list str) (soup : Soup) :
  (forall e, find_price sels soup = Some e <-> first_match price_match sels soup e)
  /\ (find_price sels soup = None <-> no_match price_match sels soup).
Proof.
  split.
  - intros e. apply (loop_some price_match find_price); [reflexivity | apply find_price_cons].
  - apply (loop_none price_match find_price); [reflexivity | apply find_price_cons].
Qed.
(** * The store on file *)

Section OnFile.
Context `{U : Unicode}.
Variable w : World.
Hypothesis disk : reliable_disk w.

Lemma mirrored_same (r r' : Run) :
  file r' = file r -> products (self r') = products (self r) ->
  mirrored r -> mirrored r'.
Proof.
  unfold mirrored, on_file. intros Hf Hp Hm c u. rewrite Hf, Hp. apply Hm.
Qed.

Lemma mirrored_saved (r' : Run) :
  file r' = Some (products (self r')) -> mirrored r'.
Proof. unfold mirrored, on_file. now intros ->. Qed.

Lemma mirrored_bind {A B} (m : M A) (k : A -> M B) :
  (forall r, mirrored r -> mirrored (snd (m r))) ->
  (forall a r, mirrored r -> mirrored (snd (k a r))) ->
  forall r, mirrored r -> mirrored (snd (bind m k r)).
Proof.
  intros Hm Hk r Hr. unfold bind. specialize (Hm r Hr).
  destruct (m r) as [[a|e] r']; [now apply Hk | exact Hm].
Qed.

Lemma mirrored_for_each {A} (l : list A) (body : A -> M unit) :
  (forall x r, mirrored r -> mirrored (snd (body x r))) ->
  forall r, mirrored r -> mirrored (snd (for_each l body r)).
Proof.
  intros Hb. induction l as [|x l IH]; intros r Hr; [exact Hr|].
  cbn [for_each]. apply mirrored_bind; auto.
Qed.

Lemma mirrored_check_record (chat_id : Z) (item : str * Product) (r : Run) :
  mirrored r -> mirrored (snd (check_record w chat_id item r)).
Proof.
  intros Hm. destruct item as [url data].
  destruct (scrape w (session_get w (S (tick r)) url)) as [[price nm]|] eqn:Hs.
  2:{ rewrite (check_record_failed w chat_id url data r Hs).
      now apply (mirrored_same r). }
  destruct (price =? last_price data)%float eqn:He.
  { rewrite (check_record_same w chat_id url data r price nm Hs He).
    now apply (mirrored_same r). }
  destruct (last_price data =? 0)%float eqn:Hz.
  { rewrite (check_record_zero w chat_id url data r price nm Hs He Hz).
    now apply (mirrored_same r). }
  destruct (dict_get chat_id (products (self r))) as [mine|] eqn:Hc.
  - destruct (dict_get url mine) as [rec|] eqn:Hu.
    + rewrite (check_record_changed w chat_id url data r price nm mine rec
                 Hs He Hz Hc Hu).
      apply mirrored_saved. unfold repriced. cbn [snd file self products].
      now rewrite disk.
    + unfold check_record, truediv, bot_send_message, update_record. run.
      rewrite get_price_run, Hs, He, Hz. simpl.
      destruct (send_message w (S (S (tick r))) chat_id _); simpl;
        rewrite Hc; simpl; rewrite Hu; simpl; now apply (mirrored_same r).
  - unfold check_record, truediv, bot_send_message, update_record. run.
    rewrite get_price_run, Hs, He, Hz. simpl.
    destruct (send_message w (S (S (tick r))) chat_id _); simpl;
      rewrite Hc; simpl; now apply (mirrored_same r).
Qed.

Lemma mirrored_check_prices_once (r : Run) :
  mirrored r -> mirrored (snd (check_prices_once w r)).
Proof.
  intros Hm. unfold check_prices_once, try_except.
  assert (Hs : mirrored (snd (sweep w r))).
  { unfold sweep. apply mirrored_bind; [| |exact Hm].
    - intros r0 H0. exact H0.
    - intros p r0 H0. apply mirrored_for_each; [|exact H0].
      intros c r1 H1. unfold check_chat. apply mirrored_bind; [| |exact H1].
      + intros r2 H2. exact H2.
      + intros p' r2 H2. apply mirrored_bind; [| |exact H2].
        * intros r3 H3. unfold subscript. now destruct (dict_get c p').
        * intros mine r3 H3. apply mirrored_for_each; [|exact H3].
          intros x r4 H4. now apply mirrored_check_record. }
  destruct (sweep w r) as [[[]|e] r']; exact Hs.
Qed.

Lemma records_of_new_chat (c : Z) (u : str) (chat_id : Z) (p : Products) :
  records_of c u (p ++ [(chat_id, [])]) = records_of c u p.
Proof.
  rewrite records_of_app.
  assert (E : records_of c u [(chat_id, [])] = []).
  { rewrite records_of_cons. now destruct (keyb c chat_id). }
  rewrite E. apply app_nil_r.
Qed.

Lemma mirrored_add_product (chat_id : Z) (args : list str) (r : Run) :
  mirrored r -> mirrored (snd (add_product w chat_id args r)).
Proof.
  intros Hm. destruct args as [|url more].
  { unfold add_product. run. now apply (mirrored_same r). }
  destruct (startswith url bol_prefix) eqn:Hp.
  2:{ rewrite (add_product_foreign w chat_id url more r Hp).
      now apply (mirrored_same r). }
  destruct (dict_in url (dict_of chat_id (products (self r)))) eqn:Hu.
  { unfold dict_of in Hu.
    destruct (dict_get chat_id (products (self r))) as [mine|] eqn:Hc;
      [|discriminate].
    rewrite (add_product_known w chat_id url more r mine Hp Hc Hu).
    now apply (mirrored_same r). }
  destruct (scrape w (session_get w (S (tick r)) url)) as [[price [|c0 title]]|] eqn:Hs.
  - rewrite (add_product_not_added w chat_id url more r Hp Hu)
      by (right; now exists price).
    intros c u. unfold not_added, on_file. cbn [snd file self products].
    destruct (dict_in chat_id (products (self r))); [apply Hm|].
    rewrite records_of_new_chat. apply Hm.
  - rewrite (add_product_added w chat_id url more r price c0 title Hp Hu Hs).
    apply mirrored_saved. unfold added. cbn [snd file self products].
    now rewrite disk.
  - rewrite (add_product_not_added w chat_id url more r Hp Hu) by now left.
    intros c u. unfold not_added, on_file. cbn [snd file self products].
    destruct (dict_in chat_id (products (self r))); [apply Hm|].
    rewrite records_of_new_chat. apply Hm.
Qed.

Lemma mirrored_telegram (e : Event) (r : Run) :
  mirrored r -> mirrored (snd (telegram w e r)).
Proof.
  intros Hm. rewrite telegram_run.
  destruct (telegram_call w (tick r)); now apply (mirrored_same r).
Qed.

Lemma mirrored_button_callback (chat_id : Z) (data : str) (r : Run) :
  mirrored r -> mirrored (snd (button_callback w chat_id data r)).
Proof.
  intros Hm.
  destruct (telegram_call w (tick r)) as [[]|e] eqn:Ha.
  2:{ rewrite (button_callback_unanswered w chat_id data r e Ha).
      now apply (mirrored_same r). }
  destruct (startswith data (py "rm_")) eqn:Hd.
  2:{ rewrite (button_callback_other w chat_id data r Ha Hd).
      now apply (mirrored_same r). }
  destruct (dict_get data (_remove_urls (self r))) as [url|] eqn:Hn.
  2:{ rewrite (button_callback_refused w chat_id data r Ha Hd Hn).
      apply mirrored_telegram. now apply (mirrored_same r). }
  destruct (dict_get url (dict_of chat_id (products (self r)))) as [rec|] eqn:Hu.
  - unfold dict_of in Hu.
    destruct (dict_get chat_id (products (self r))) as [mine|] eqn:Hc;
      [|discriminate].
    rewrite (button_callback_removed w chat_id data url r mine rec Ha Hd Hn Hc Hu).
    apply mirrored_telegram, mirrored_saved. unfold removed.
    cbn [file self products]. now rewrite disk.
  - rewrite (button_callback_not_found w chat_id data url r Ha Hd Hn Hu).
    apply mirrored_telegram. now apply (mirrored_same r).
Qed.

Lemma mirrored_remove_product (chat_id : Z) (r : Run) :
  mirrored r -> mirrored (snd (remove_product w chat_id r)).
Proof.
  intros Hm.
  destruct (has_no_products chat_id (products (self r))) eqn:Hn.
  - rewrite (remove_product_none w chat_id r Hn). now apply mirrored_telegram.
  - unfold has_no_products in Hn.
    destruct (dict_get chat_id (products (self r))) as [[|item mine]|] eqn:Hc;
      try discriminate.
    rewrite (remove_product_run w chat_id r (item :: mine) Hc) by discriminate.
    apply mirrored_telegram. now apply (mirrored_same r).
Qed.

Lemma mirrored_handle (u : Update) (r : Run) :
  mirrored r -> mirrored (snd (handle w u r)).
Proof.
  intros Hm. destruct u as [c|c|c args|c|c|c data|]; cbn [handle].
  - now apply (mirrored_same r).
  - now apply (mirrored_same r).
  - now apply mirrored_add_product.
  - rewrite list_products_run. now apply (mirrored_same r).
  - now apply mirrored_remove_product.
  - now apply mirrored_button_callback.
  - now apply mirrored_check_prices_once.
Qed.

End OnFile.

(** On a disk on which no dump fails, the data file holds the records the bot
    holds in memory after every update and every polling turn, given that it
    did before: whatever is added, removed or repriced is on file when the
    handler returns. A bot that starts without a data file starts that way. *)
Theorem file_mirrors_memory `{U : Unicode} (w : World) (u : Update) (r : Run) :
  reliable_disk w -> mirrored r ->
  mirrored (snd (handle w u r)) /\ mirrored fresh.
Proof.
  intros Hd Hm. split; [now apply mirrored_handle | intros c u'; reflexivity].
Qed.

Lemma file_mirrors_memory_witness :
  mirrored run_added.
Proof.
  refine (proj1 (file_mirrors_memory
                   (shop (py "Kettle") (fun _ => py "€ 38,99") true)
                   (CmdAdd 7 [url_a]) fresh _ _)).
  - intros t. reflexivity.
  - intros c u. reflexivity.
Defined.
(** * More on the clean-up and on formatted prices *)

(** The clean-up is idempotent: a cleaned-up text is its own clean-up. *)
Theorem clean_price_text_idempotent `{U : Unicode} (raw : str) :
  clean_price_text (clean_price_text raw) = clean_price_text raw.
Proof.
  destruct (clean_price_text_alphabet raw) as [Ha Hc].
  set (t := clean_price_text raw) in *.
  rewrite clean_price_text_as_specified. unfold normalized_as_specified.
  assert (Hk : filter kept t = t).
  { apply filter_all. apply forallb_forall. intros c Hin.
    rewrite Forall_forall in Ha. unfold kept.
    destruct (Ha c Hin) as [Hd| ->]; [now rewrite Hd|].
    now rewrite N.eqb_refl, orb_true_r. }
  assert (Hm : map (fun c => if c =? comma then period else c) t = t).
  { rewrite <- (map_id t) at 2. apply map_ext_in. intros c Hin.
    rewrite Forall_forall in Ha.
    destruct (c =? comma) eqn:Ec; [|reflexivity].
    apply N.eqb_eq in Ec. subst c.
    destruct (Ha comma Hin) as [Hd|Hp]; [|discriminate].
    rewrite comma_not_digit in Hd. discriminate. }
  rewrite Hk, Hm.
  destruct (1 <? count period t)%nat eqn:H1; [|reflexivity].
  apply Nat.ltb_lt in H1. lia.
Qed.

Lemma two_digits_below_100 (n : N) : n < 100 -> two_digits n = true.
Proof.
  intros Hn.
  assert (H : forallb two_digits (map N.of_nat (seq 0 100)) = true)
    by (vm_compute; reflexivity).
  rewrite forallb_forall in H. apply H.
  apply in_map_iff. exists (N.to_nat n). split; [apply N2Nat.id|].
  apply in_seq. lia.
Qed.

Lemma fixed_point_two (r : Z) :
  exists d1 d2,
    fixed_point 2 r = str_of_N (Z.to_N (r / 100)) ++ [period; d1; d2]
    /\ ascii_digit_char d1 = true /\ ascii_digit_char d2 = true.
Proof.
  unfold fixed_point. change (10 ^ Z.of_nat 2)%Z with 100%Z.
  assert (Hn : Z.to_N (r mod 100) < 100)
    by (pose proof (Z.mod_pos_bound r 100); lia).
  pose proof (two_digits_below_100 _ Hn) as Ht. unfold two_digits in Ht.
  destruct (repeat 48 (2 - List.length (str_of_N (Z.to_N (r mod 100))))
            ++ str_of_N (Z.to_N (r mod 100))) as [|d1 [|d2 [|? ?]]];
    try discriminate.
  apply andb_true_iff in Ht as [H1 H2]. now exists d1, d2.
Qed.

(** A price that is finite and has no sign bit is shown as the euro sign, an
    integer part, a period and exactly two ASCII digits. *)
Theorem format_price_two_decimals (x : float) :
  plain x = true ->
  exists ip d1 d2,
    format_price x = py "€" ++ str_of_N ip ++ [period; d1; d2]
    /\ ascii_digit_char d1 = true /\ ascii_digit_char d2 = true.
Proof.
  unfold plain, format_price, format_f. intros Hp.
  destruct (Prim2SF x) as [s| s | |s m e]; try discriminate;
    destruct s; try discriminate; cbn [app].
  - destruct (fixed_point_two 0) as (d1 & d2 & E & H1 & H2).
    exists (Z.to_N (0 / 100)), d1, d2. now rewrite E.
  - destruct (fixed_point_two (scaled 2 m e)) as (d1 & d2 & E & H1 & H2).
    exists (Z.to_N (scaled 2 m e / 100)), d1, d2. now rewrite E.
Qed.

Lemma format_price_two_decimals_witness :
  exists ip d1 d2,
    format_price 38.99 = py "€" ++ str_of_N ip ++ [period; d1; d2]
    /\ ascii_digit_char d1 = true /\ ascii_digit_char d2 = true.
Proof.
  refine (format_price_two_decimals 38.99%float _). vm_compute. reflexivity.
Defined.
